(** * Personal expense tracker: record repository and aggregation engine

    A shallow embedding of the data-access functions of [expense_tracker.py]
    ([add_expense], [list_expenses], [update_expense], [delete_expense],
    [summarize]) together with the fragment of SQLite they rely on: one table
    [expenses] with an [AUTOINCREMENT] key, [WHERE] conjunctions over text
    columns, [ORDER BY], [LIMIT], [GROUP BY] with [SUM] and [ROUND].

    The database file is a value of type [store]; every function takes the
    store it runs against and returns the store it leaves behind, so that a
    rolled-back statement is visible as an unchanged store.  [init_db] only
    creates the table when it is missing: the empty store stands for both a
    missing file and an empty table.

    Texts are strings of bytes (the UTF-8 encoding SQLite stores), integers
    are unbounded as in Python; an integer handed to SQLite (an id, a
    limit) must fit its 64-bit INTEGER, and binding one that does not
    raises [OverflowError].  A function argument whose default is [None] is
    an [option]. *)

From Stdlib Require Import List String Ascii ZArith QArith Bool Lia.
From Stdlib Require Import DecimalString.
From Stdlib Require Import Permutation Sorted RelationClasses.
Import ListNotations.

Local Open Scope string_scope.
Local Open Scope Z_scope.

(** ** Python values *)

Module Py.

(** [bool(s)] for a [str]: only the empty string is falsy. *)
Definition str_truthy (s : string) : bool := negb (s =? "")%string.

(** Truthiness of an argument that is a [str] or [None]. *)
Definition truthy (x : option string) : bool :=
  match x with
  | Some s => str_truthy s
  | None => false
  end.

(** Truthiness of an argument that is an [int] or [None]. *)
Definition int_truthy (x : option Z) : bool :=
  match x with
  | Some n => negb (n =? 0)
  | None => false
  end.

(** [x or ""]. *)
Definition or_empty (x : option string) : string :=
  match x with
  | Some s => if str_truthy s then s else ""
  | None => ""
  end.

End Py.

(** ** The SQLite fragment that does not depend on the table *)

Module Sql.

(** Comparison of [TEXT] values under the default [BINARY] collation:
    byte-wise, a proper prefix being smaller. *)
Definition text_leb (a b : string) : bool := (a <=? b)%string.

Section OrderBy.
Context {A : Type} (before : A -> A -> bool).

Fixpoint insert_by (x : A) (l : list A) : list A :=
  match l with
  | [] => [x]
  | y :: l' => if before x y then x :: l else y :: insert_by x l'
  end.

(** [ORDER BY]: the rows sorted so that [before] holds along the result.
    Rows that [before] relates both ways keep their input order; SQLite
    leaves that order open. *)
Fixpoint order_by (l : list A) : list A :=
  match l with
  | [] => []
  | x :: l' => insert_by x (order_by l')
  end.
End OrderBy.

(** A Python [int] fits an SQLite [INTEGER] when it is a signed 64-bit
    number. *)
Definition fits_int64 (n : Z) : bool :=
  (- 2 ^ 63 <=? n) && (n <? 2 ^ 63).

(** Binding an [int] parameter: [None] stands for the [OverflowError] that
    the binding raises, before the statement runs. *)
Definition bind_int (n : Z) : option Z :=
  if fits_int64 n then Some n else None.

(** [LIMIT n]: a negative [n] puts no bound on the number of rows. *)
Definition limit {A : Type} (n : Z) (l : list A) : list A :=
  if n <? 0 then l else firstn (Z.to_nat n) l.

(** UTF-8 bytes: a lead byte of a multi-byte character and a continuation
    byte. *)
Definition is_lead (c : ascii) : bool := (192 <=? N_of_ascii c)%N.
Definition is_cont (c : ascii) : bool :=
  (N.land (N_of_ascii c) 192 =? 128)%N.

(** The NUL character, at which [substr] stops reading a text. *)
Definition is_nul (c : ascii) : bool := (N_of_ascii c =? 0)%N.

(** The first [n] characters of a text, up to its first NUL character:
    each character is one byte, or a lead byte (at least 0xC0) with the
    continuation bytes after it.  [multi] tells that the bytes read last
    belong to a multi-byte character. *)
Fixpoint take_chars (n : nat) (multi : bool) (s : string) : string :=
  match s with
  | EmptyString => EmptyString
  | String c s' =>
      if multi && is_cont c then String c (take_chars n true s')
      else if is_nul c then EmptyString
      else match n with
           | O => EmptyString
           | S n' => String c (take_chars n' (is_lead c) s')
           end
  end.

(** [substr(x, 1, 7)]. *)
Definition substr_1_7 (s : string) : string := take_chars 7 false s.

(** [COALESCE(NULLIF(x, ''), 'uncategorized')] on a text that is not NULL. *)
Definition coalesce_nullif_empty (x : string) : string :=
  let nullif := if (x =? "")%string then None else Some x in
  match nullif with
  | Some y => y
  | None => "uncategorized"
  end.

(** The keys of [GROUP BY], each once, in ascending order. *)
Definition group_keys (keys : list string) : list string :=
  order_by text_leb (nodup string_dec keys).

End Sql.

(** ** SQLite [REAL] values

    The amounts are IEEE doubles in Python and in the database.  Their
    arithmetic is SQLite's, not this program's: the sum that [SUM] computes,
    the rounding of [ROUND(x, 2)] and the comparison of two reals are taken
    as operations of an interface.  [real] stands for the values a [REAL]
    column can hold; SQLite has no NaN (it stores NULL instead).  The
    schema admits non-negative amounts only, and [real_sum] is called on
    the amounts of rows in rowid order; the order in which SQLite visits
    the rows depends on the plan it picks. *)

Class SqlReal : Type := {
  real : Type;
  (** the Python literal [0.0] *)
  real_zero : real;
  (** [bool(x)] in Python: [x != 0.0] *)
  real_truthy : real -> bool;
  (** the value of the SQL expression [x >= 0] *)
  real_nonneg : real -> bool;
  (** the value of the SQL expression [x <= y] *)
  real_leb : real -> real -> bool;
  (** [SUM] over the values of a group that is not empty *)
  real_sum : list real -> real;
  (** [ROUND(x, 2)] *)
  real_round2 : real -> real
}.

(** What the development uses of the comparison of reals: it is a total
    preorder, and a falsy real compares equal to [0.0]. *)
Class SqlRealLaws (R : SqlReal) : Prop := {
  real_leb_total : forall x y : real,
    real_leb x y = true \/ real_leb y x = true;
  real_leb_trans : forall x y z : real,
    real_leb x y = true -> real_leb y z = true -> real_leb x z = true;
  real_falsy_zero : forall x : real,
    real_truthy x = false ->
    real_leb x real_zero = true /\ real_leb real_zero x = true
}.

(** Two reals are numerically equal when each is at most the other. *)
Definition real_eq {R : SqlReal} (x y : real) : Prop :=
  real_leb x y = true /\ real_leb y x = true.

(** ** Outcomes

    What a call raises, or its value.  The two [ValueError]s of
    [update_expense] and [delete_expense] differ by their message only. *)

Inductive error : Type :=
| NoFieldsProvided            (* ValueError("No fields provided to update.") *)
| NotFound (expense_id : Z)   (* ValueError(f"Expense id {expense_id} not found.") *)
| IntegrityError              (* sqlite3.IntegrityError: NOT NULL or CHECK failed *)
| OverflowError.              (* an int parameter does not fit INTEGER *)

Inductive result (A : Type) : Type :=
| Ok (a : A)
| Raise (e : error).
Arguments Ok {A} a.
Arguments Raise {A} e.

(** ** The program *)

Section Tracker.

Context {R : SqlReal}.

(** A Python [float] handed to SQLite. *)
Inductive pyfloat : Type :=
| Float (r : real)
| NaN.

(** Binding a [float] parameter: NaN is bound as NULL. *)
Definition bind_float (x : pyfloat) : option real :=
  match x with
  | Float r => Some r
  | NaN => None
  end.

(** A row of the table [expenses]; also the tuple that a [SELECT id,
    amount, date, category, note] returns. *)
Record expense : Type := mkExpense {
  id : Z;
  amount : real;
  date : string;
  category : string;
  note : string
}.

(** The database: the rows of [expenses] in rowid order and the counter
    kept in [sqlite_sequence] for the [AUTOINCREMENT] key, the largest
    rowid handed out so far.  Failures of the storage engine itself (a
    full disk, the 64-bit rowid space used up) are outside the model. *)
Record store : Type := mkStore {
  rows : list expense;
  seq : Z
}.

Definition empty_store : store := {| rows := []; seq := 0 |}.

(** *** Schema *)

(** [amount REAL NOT NULL CHECK(amount >= 0)]. *)
Definition amount_constraint (v : option real) : option real :=
  match v with
  | Some r => if real_nonneg r then Some r else None
  | None => None
  end.

Definition max_rowid (l : list expense) : Z :=
  fold_right Z.max 0 (map id l).

(** [id INTEGER PRIMARY KEY AUTOINCREMENT]: one more than the largest
    rowid in the table or ever handed out. *)
Definition next_rowid (s : store) : Z :=
  Z.max (seq s) (max_rowid (rows s)) + 1.

(** *** [WHERE] clauses *)

Inductive cond : Type :=
| DateGe (v : string)        (* date >= ? *)
| DateLe (v : string)        (* date <= ? *)
| CategoryEq (v : string).   (* category = ? *)

Definition holds (r : expense) (c : cond) : bool :=
  match c with
  | DateGe v => Sql.text_leb v (date r)
  | DateLe v => Sql.text_leb (date r) v
  | CategoryEq v => (category r =? v)%string
  end.

(** The conditions joined by [AND]; none is [WHERE 1=1] or no [WHERE]. *)
Definition holds_all (cs : list cond) (r : expense) : bool :=
  forallb (holds r) cs.

(** The filters that [list_expenses] and [summarize] both append, one
    [if] after the other. *)
Definition filters (start end_ category : option string) : list cond :=
  (match start with
   | Some v => if Py.truthy start then [DateGe v] else []
   | None => []
   end) ++
  (match end_ with
   | Some v => if Py.truthy end_ then [DateLe v] else []
   | None => []
   end) ++
  (match category with
   | Some v => if Py.truthy category then [CategoryEq v] else []
   | None => []
   end).

(** *** add_expense *)

Definition sql_insert (s : store) (a : option real) (d c n : string)
  : result store :=
  match amount_constraint a with
  | None => Raise IntegrityError
  | Some r =>
      let i := next_rowid s in
      Ok {| rows := rows s ++ [mkExpense i r d c n]; seq := i |}
  end.

Definition add_expense (s : store) (amount : pyfloat) (date : string)
    (category note : option string) : store * result unit :=
  match sql_insert s (bind_float amount) date
          (Py.or_empty category) (Py.or_empty note) with
  | Ok s' => (s', Ok tt)
  | Raise e => (s, Raise e)
  end.

(** *** list_expenses *)

(** [ORDER BY date DESC, id DESC]. *)
Definition date_desc_id_desc (r1 r2 : expense) : bool :=
  match (date r2 ?= date r1)%string with
  | Lt => true
  | Eq => id r2 <=? id r1
  | Gt => false
  end.

Definition list_expenses (s : store) (start end_ category : option string)
    (limit : option Z) : result (list expense) :=
  let args := filters start end_ category in
  let ordered :=
    Sql.order_by date_desc_id_desc (filter (holds_all args) (rows s)) in
  match limit with
  | Some n =>
      if Py.int_truthy limit then
        match Sql.bind_int n with
        | Some k => Ok (Sql.limit k ordered)
        | None => Raise OverflowError
        end
      else Ok ordered
  | None => Ok ordered
  end.

(** *** update_expense *)

Inductive assignment : Type :=
| SetAmount (v : pyfloat)     (* amount = ? *)
| SetDate (v : string)        (* date = ? *)
| SetCategory (v : string)    (* category = ? *)
| SetNote (v : string).       (* note = ? *)

(** One assignment of the [SET] list on one row; [None] when the new row
    violates a constraint of the schema. *)
Definition assign (r : option expense) (a : assignment) : option expense :=
  match r with
  | None => None
  | Some r =>
      match a with
      | SetAmount v =>
          match amount_constraint (bind_float v) with
          | Some x => Some (mkExpense (id r) x (date r) (category r) (note r))
          | None => None
          end
      | SetDate v => Some (mkExpense (id r) (amount r) v (category r) (note r))
      | SetCategory v => Some (mkExpense (id r) (amount r) (date r) v (note r))
      | SetNote v => Some (mkExpense (id r) (amount r) (date r) (category r) v)
      end
  end.

(** [UPDATE expenses SET ... WHERE id = ?] on the rows: the new rows and
    the number of rows changed, or [None] on a constraint violation. *)
Fixpoint update_rows (sets : list assignment) (expense_id : Z)
    (l : list expense) : option (list expense * Z) :=
  match l with
  | [] => Some ([], 0)
  | r :: l' =>
      if id r =? expense_id then
        match fold_left assign sets (Some r), update_rows sets expense_id l' with
        | Some r', Some (l'', k) => Some (r' :: l'', k + 1)
        | _, _ => None
        end
      else
        match update_rows sets expense_id l' with
        | Some (l'', k) => Some (r :: l'', k)
        | None => None
        end
  end.

Definition sql_update (s : store) (sets : list assignment) (expense_id : Z)
  : result (store * Z) :=
  match update_rows sets expense_id (rows s) with
  | Some (l, k) => Ok ({| rows := l; seq := seq s |}, k)
  | None => Raise IntegrityError
  end.

Definition update_sets (amount : option pyfloat)
    (date category note : option string) : list assignment :=
  (match amount with Some v => [SetAmount v] | None => [] end) ++
  (match date with Some v => [SetDate v] | None => [] end) ++
  (match category with Some v => [SetCategory v] | None => [] end) ++
  (match note with Some v => [SetNote v] | None => [] end).

Definition update_expense (s : store) (expense_id : Z)
    (amount : option pyfloat) (date category note : option string)
  : store * result unit :=
  let sets := update_sets amount date category note in
  match sets with
  | [] => (s, Raise NoFieldsProvided)
  | _ :: _ =>
      match Sql.bind_int expense_id with
      | None => (s, Raise OverflowError)
      | Some i =>
          match sql_update s sets i with
          | Raise e => (s, Raise e)
          | Ok (s', rowcount) =>
              if rowcount =? 0 then (s, Raise (NotFound expense_id))
              else (s', Ok tt)
          end
      end
  end.

(** *** delete_expense *)

(** [DELETE FROM expenses WHERE id = ?]: the store left and the number of
    rows removed. *)
Definition sql_delete (s : store) (expense_id : Z) : store * Z :=
  ({| rows := filter (fun r => negb (id r =? expense_id)) (rows s);
      seq := seq s |},
   Z.of_nat (List.length (filter (fun r => id r =? expense_id) (rows s)))).

Definition delete_expense (s : store) (expense_id : Z)
  : store * result unit :=
  match Sql.bind_int expense_id with
  | None => (s, Raise OverflowError)
  | Some i =>
      let (s', rowcount) := sql_delete s i in
      if rowcount =? 0 then (s, Raise (NotFound expense_id))
      else (s', Ok tt)
  end.

(** *** summarize *)

(** [SUM(amount)] over the selected rows: NULL when there is none. *)
Definition sql_SUM (l : list real) : option real :=
  match l with
  | [] => None
  | _ :: _ => Some (real_sum l)
  end.

(** [ROUND(x, 2)]: NULL for NULL. *)
Definition sql_ROUND2 (x : option real) : option real :=
  match x with
  | Some v => Some (real_round2 v)
  | None => None
  end.

(** [total or 0.0], where [total] is a [float] or [None]. *)
Definition or_zero (total : option real) : real :=
  match total with
  | Some v => if real_truthy v then v else real_zero
  | None => real_zero
  end.

(** [SELECT <key> AS grp, ROUND(SUM(amount), 2) AS total ... GROUP BY
    grp]: one row per value of the key, in ascending order of the key. *)
Definition group_totals (key : expense -> string) (l : list expense)
  : list (string * real) :=
  map (fun k =>
         (k, real_round2
               (real_sum
                  (map amount (filter (fun r => (key r =? k)%string) l)))))
      (Sql.group_keys (map key l)).

Definition category_label (r : expense) : string :=
  Sql.coalesce_nullif_empty (category r).

Definition month_label (r : expense) : string :=
  Sql.substr_1_7 (date r).

(** [ORDER BY total DESC] and [ORDER BY grp DESC]. *)
Definition total_desc (p q : string * real) : bool :=
  real_leb (snd q) (snd p).
Definition grp_desc (p q : string * real) : bool :=
  Sql.text_leb (fst q) (fst p).

Definition summarize (s : store) (start end_ by_ category : option string)
  : list (string * real) :=
  let args := filters start end_ category in
  let selected := filter (holds_all args) (rows s) in
  match by_ with
  | Some b =>
      if (b =? "category")%string then
        Sql.order_by total_desc (group_totals category_label selected)
      else if (b =? "month")%string then
        Sql.order_by grp_desc (group_totals month_label selected)
      else
        [("total", or_zero (sql_ROUND2 (sql_SUM (map amount selected))))]
  | None =>
      [("total", or_zero (sql_ROUND2 (sql_SUM (map amount selected))))]
  end.

End Tracker.


(** ** Sorted results

    A list is sorted by [before] when [before] holds from every element to
    every later one. *)

Definition sorted_by {A : Type} (before : A -> A -> bool) (l : list A)
  : Prop :=
  StronglySorted (fun x y => before x y = true) l.

(** ** Histories of calls

    A database file only ever changes through [add_expense],
    [update_expense] and [delete_expense].  A history is the list of the
    writing calls made since the file was created; it determines the store
    and the rowids that were handed out on the way. *)

Section History.

Context {R : SqlReal}.

Inductive call : Type :=
| Add (amount : pyfloat) (date : string) (category note : option string)
| Update (expense_id : Z) (amount : option pyfloat)
    (date category note : option string)
| Delete (expense_id : Z).

Definition exec (s : store) (c : call) : store * result unit :=
  match c with
  | Add a d c n => add_expense s a d c n
  | Update i a d c n => update_expense s i a d c n
  | Delete i => delete_expense s i
  end.

Definition step (s : store) (c : call) : store := fst (exec s c).

Definition run_from (s : store) (h : list call) : store := fold_left step h s.

Definition run (h : list call) : store := run_from empty_store h.

(** The rowid a call hands out: the one of the row a successful [Add]
    inserts. *)
Definition assigned_by (s : store) (c : call) : list Z :=
  match c with
  | Add a d c n =>
      match snd (add_expense s a d c n) with
      | Ok _ => [next_rowid s]
      | Raise _ => []
      end
  | Update _ _ _ _ _ => []
  | Delete _ => []
  end.

Fixpoint assigned_from (s : store) (h : list call) : list Z :=
  match h with
  | [] => []
  | c :: h' => assigned_by s c ++ assigned_from (step s c) h'
  end.

Definition assigned_ids (h : list call) : list Z :=
  assigned_from empty_store h.

(** No row carries a rowid above the counter. *)
Definition ids_bounded (s : store) : Prop :=
  Forall (fun r => id r <= seq s) (rows s).

End History.

(** ** Integers that SQLite does not take

    An id or a limit inside or outside the signed 64-bit range; a limit is
    bound only when it is truthy, that is not [None] and not 0. *)

Definition in_int64 (n : Z) : Prop := - 2 ^ 63 <= n < 2 ^ 63.

Definition out_of_int64 (n : Z) : Prop := n < - 2 ^ 63 \/ 2 ^ 63 <= n.

Definition limit_overflows (limit : option Z) : Prop :=
  exists n, limit = Some n /\ out_of_int64 n.

(** ** Readings of the filters and groups

    [selects] is the [WHERE] clause of [list_expenses] and [summarize] said
    row by row: a bound or category that is absent or the empty string
    selects every row.  [supplied_selects] applies every argument that is
    not [None], the empty string included.  [distinct_categories] lists the
    stored categories of some rows, each once. *)

Section Readings.

Context {R : SqlReal}.

Definition selects (start end_ cat : option string) (r : expense)
  : bool :=
  match start with
  | Some v => (v =? "")%string || (v <=? date r)%string
  | None => true
  end &&
  match end_ with
  | Some v => (v =? "")%string || (date r <=? v)%string
  | None => true
  end &&
  match cat with
  | Some v => (v =? "")%string || (category r =? v)%string
  | None => true
  end.

(** The same as a proposition: the conjunction of the filters that are
    supplied and not empty. *)
Definition satisfies (start end_ cat : option string) (r : expense)
  : Prop :=
  (forall v, start = Some v -> v <> "" -> (v <=? date r)%string = true) /\
  (forall v, end_ = Some v -> v <> "" -> (date r <=? v)%string = true) /\
  (forall v, cat = Some v -> v <> "" -> category r = v).

Definition supplied_selects (start end_ cat : option string)
    (r : expense) : bool :=
  match start with
  | Some v => (v <=? date r)%string
  | None => true
  end &&
  match end_ with
  | Some v => (date r <=? v)%string
  | None => true
  end &&
  match cat with
  | Some v => (category r =? v)%string
  | None => true
  end.

Definition distinct_categories (l : list expense) : list string :=
  nodup string_dec (map category l).

(** What [update_expense] on [expense_id] leaves alone in a row [r] that
    becomes [r']: the id, a row with another id as a whole, and every
    field for which the call passes [None]. *)
Definition kept_by_update (expense_id : Z) (amount_arg : option pyfloat)
    (date_arg category_arg note_arg : option string) (r r' : expense)
  : Prop :=
  id r' = id r /\
  (id r <> expense_id -> r' = r) /\
  (amount_arg = None -> amount r' = amount r) /\
  (date_arg = None -> date r' = date r) /\
  (category_arg = None -> category r' = category r) /\
  (note_arg = None -> note r' = note r).

(** What it writes: every field for which the call passes a value. *)
Definition written_by_update (amount_arg : option pyfloat)
    (date_arg category_arg note_arg : option string) (r' : expense)
  : Prop :=
  (forall x, amount_arg = Some (Float x) -> amount r' = x) /\
  (forall v, date_arg = Some v -> date r' = v) /\
  (forall v, category_arg = Some v -> category r' = v) /\
  (forall v, note_arg = Some v -> note r' = v).

(** The label under which [summarize] shows a category. *)
Definition label_of_category (c : string) : string :=
  if (c =? "")%string then "uncategorized" else c.

(** The rows that the filters select, in the order of [list_expenses]:
    what the query returns before any [LIMIT]. *)
Definition ordered_selection (s : store) (start end_ cat : option string)
  : list expense :=
  Sql.order_by date_desc_id_desc (filter (selects start end_ cat) (rows s)).

(** The order of [list_expenses]: a later date first, and among equal dates
    the larger id first. *)
Definition listed_before (r1 r2 : expense) : Prop :=
  (date r2 <? date r1)%string = true \/
  (date r1 = date r2 /\ id r2 <= id r1).

(** The order of [summarize] by category: the larger total first. *)
Definition total_ge (p q : string * real) : Prop :=
  real_leb (snd q) (snd p) = true.

End Readings.

(** ** An instance: exact decimal arithmetic

    Rationals with exact sums and [ROUND(x, 2)] rounding half away from zero.
    It gives the operations of [SqlReal] a sense on concrete amounts such as
    [10] or [120.50]; doubles obey the same laws of order but do not add
    exactly. *)

Definition Q_round2 (q : Q) : Q :=
  let n := Qnum q * 100 in
  let d := Zpos (Qden q) in
  Qred ((Z.sgn n * ((2 * Z.abs n + d) / (2 * d))) # 100).

Definition Q_sum (l : list Q) : Q := Qred (fold_left Qplus l 0%Q).

#[export] Instance ExactReal : SqlReal := {|
  real := Q;
  real_zero := 0%Q;
  real_truthy := fun q => negb (Qeq_bool q 0);
  real_nonneg := fun q => Qle_bool 0 q;
  real_leb := Qle_bool;
  real_sum := Q_sum;
  real_round2 := Q_round2
|}.

(** ** Example stores over the exact instance *)

(** Two rows, one without a category. *)
Definition two_rows : @store ExactReal :=
  {| rows := [mkExpense 1 10%Q "2025-01-01" "" "bus";
              mkExpense 2 5%Q "2025-01-03" "food" "lunch"];
     seq := 2 |}.

(** A row without a category and a row whose category is the word the
    summary uses for such rows. *)
Definition clashing_labels : @store ExactReal :=
  {| rows := [mkExpense 1 10%Q "2025-01-01" "" "bus";
              mkExpense 2 5%Q "2025-01-03" "uncategorized" "misc"];
     seq := 2 |}.

(** The three dates of the ordering example, added in that order. *)
Definition three_dates : list (@call ExactReal) :=
  [Add (Float 10%Q) "2025-01-01" (Some "food") (Some "a");
   Add (Float 20%Q) "2025-01-03" (Some "rent") (Some "b");
   Add (Float 30%Q) "2025-01-02" (Some "") (Some "c")].

(** ** What a history keeps of the schema

    The primary key grows along the table, no rowid is above the counter,
    and every amount passed the [CHECK]. *)

Section Schema.

Context {R : SqlReal}.

Definition key_ascending (l : list expense) : Prop :=
  StronglySorted (fun r1 r2 => id r1 < id r2) l.

Definition schema_ok (s : store) : Prop :=
  key_ascending (rows s) /\
  Forall (fun r => 0 < id r <= seq s) (rows s) /\
  Forall (fun r => real_nonneg (amount r) = true) (rows s).

(** An amount that the column [amount] does not take: NaN, bound as NULL,
    or a number for which [amount >= 0] is false. *)
Definition rejected_amount (a : pyfloat) : Prop :=
  a = NaN \/ exists x, a = Float x /\ real_nonneg x = false.

End Schema.

(** A text of ASCII characters other than NUL. *)
Fixpoint all_ascii (s : string) : bool :=
  match s with
  | EmptyString => true
  | String c s' =>
      (0 <? N_of_ascii c)%N && (N_of_ascii c <? 128)%N && all_ascii s'
  end.

(** ** The presentation layer: [print_table] and the dispatch of [main]

    What [print] writes is the list of the lines written, in order.  The
    text that [str] gives for a float and the message of an
    [sqlite3.IntegrityError] are not this program's and are parameters.
    [main] is modelled from the parsed arguments on: [argparse] has already
    applied [positive_amount], [valid_date] and [int]. *)

(** [len(s)]: the number of code points of a text in UTF-8. *)
Fixpoint py_len (s : string) : nat :=
  match s with
  | EmptyString => O
  | String c s' => ((if Sql.is_cont c then 0 else 1) + py_len s')%nat
  end.

(** [c * n] for a one-character string [c]. *)
Fixpoint repeat_char (c : ascii) (n : nat) : string :=
  match n with
  | O => EmptyString
  | S n' => String c (repeat_char c n')
  end.

(** [format(s, "<w")]: [s] padded on the right with spaces up to [w]
    characters. *)
Definition ljust (w : nat) (s : string) : string :=
  s ++ repeat_char " " (w - py_len s).

(** [str(n)] for an [int]. *)
Definition str_int (n : Z) : string := NilZero.string_of_int (Z.to_int n).

(** How a call of [print_table] ends. *)
Inductive exit : Type :=
| Returned
| IndexError.   (* str.format with fewer arguments than fields *)

(** [fmt.format( *args )] where [fmt] has one field [{:<w}] per width,
    joined by " | ": the fields take the first arguments, arguments left
    over are ignored, arguments missing raise [IndexError]. *)
Definition format_fields (widths : list nat) (args : list string)
  : option string :=
  if (List.length args <? List.length widths)%nat then None
  else Some (String.concat " | "
               (map (fun wa => ljust (fst wa) (snd wa)) (combine widths args))).

(** The loop [for r in str_rows: print(fmt.format( *r ))]. *)
Fixpoint print_rows (widths : list nat) (str_rows : list (list string))
  : list string * exit :=
  match str_rows with
  | [] => ([], Returned)
  | r :: rest =>
      match format_fields widths r with
      | None => ([], IndexError)
      | Some line =>
          let (lines, e) := print_rows widths rest in (line :: lines, e)
      end
  end.

(** [widths = [max(w, len(c)) for w, c in zip(widths, r)]]. *)
Definition widen (widths : list nat) (r : list string) : list nat :=
  map (fun wc => Nat.max (fst wc) (py_len (snd wc))) (combine widths r).

Definition column_widths (headers : list string)
    (str_rows : list (list string)) : list nat :=
  fold_left widen str_rows (map py_len headers).

(** The width of a printed line: the widths of its columns and three
    characters between two columns. *)
Fixpoint table_width (widths : list nat) : nat :=
  match widths with
  | [] => O
  | w :: rest =>
      match rest with
      | [] => w
      | _ :: _ => (w + 3 + table_width rest)%nat
      end
  end.

(** Each column is at least as wide as the argument it takes. *)
Inductive covers : list nat -> list string -> Prop :=
| covers_nil (args : list string) : covers [] args
| covers_cons (w : nat) (widths : list nat) (a : string)
    (args : list string) :
    (py_len a <= w)%nat -> covers widths args ->
    covers (w :: widths) (a :: args).

(** The columns that are left are at least as wide as they were. *)
Inductive widened : list nat -> list nat -> Prop :=
| widened_nil (old : list nat) : widened [] old
| widened_cons (w w' : nat) (widths widths' : list nat) :
    (w <= w')%nat -> widened widths' widths ->
    widened (w' :: widths') (w :: widths).

Section Presentation.

Context {R : SqlReal}.

(** [str(x)] for a [float]. *)
Variable float_str : real -> string.

(** [str(e)] for an [sqlite3.IntegrityError] and for an [IndexError];
    SQLite and Python word them. *)
Variable integrity_text : string.
Variable index_error_text : string.

(** A value in a row that a query returned. *)
Inductive cell : Type :=
| CInt (n : Z)
| CFloat (x : real)
| CText (s : string)
| CNone.

(** [str(c) if c is not None else ""]. *)
Definition str_cell (c : cell) : string :=
  match c with
  | CInt n => str_int n
  | CFloat x => float_str x
  | CText s => s
  | CNone => ""
  end.

Definition print_table (rows : list (list cell)) (headers : list string)
  : list string * exit :=
  match rows with
  | [] => (["No records found."], Returned)
  | _ :: _ =>
      let str_rows := map (map str_cell) rows in
      let widths := column_widths headers str_rows in
      match format_fields widths headers with
      | None => ([], IndexError)
      | Some head =>
          let rule :=
            String.concat "-+-" (map (repeat_char "-") widths) in
          let (lines, e) := print_rows widths str_rows in
          (head :: rule :: lines, e)
      end
  end.

(** The arguments as [argparse] hands them over, by subcommand.  The
    defaults of [add] are empty strings, all others are [None]. *)
Inductive args : Type :=
| ArgsAdd (amount : pyfloat) (date category note : string)
| ArgsList (start end_ category : option string) (limit : option Z)
| ArgsUpdate (expense_id : Z) (amount : option pyfloat)
    (date category note : option string)
| ArgsDelete (expense_id : Z)
| ArgsSummary (start end_ by_ category : option string).

(** The call that a subcommand makes, for the three that write, and the
    line that confirms it. *)
Definition call_of (a : args) : option call :=
  match a with
  | ArgsAdd amount date category note =>
      Some (Add amount date (Some category) (Some note))
  | ArgsUpdate i amount date category note =>
      Some (Update i amount date category note)
  | ArgsDelete i => Some (Delete i)
  | ArgsList _ _ _ _ => None
  | ArgsSummary _ _ _ _ => None
  end.

Definition confirmation (c : call) : string :=
  match c with
  | Add _ _ _ _ => "✅ Added."
  | Update _ _ _ _ _ => "✅ Updated."
  | Delete _ => "🗑️ Deleted."
  end.

(** [str(e)]. *)
Definition error_text (e : error) : string :=
  match e with
  | NoFieldsProvided => "No fields provided to update."
  | NotFound i => "Expense id " ++ str_int i ++ " not found."
  | IntegrityError => integrity_text
  | OverflowError => "Python int too large to convert to SQLite INTEGER"
  end.

Definition expense_cells (r : expense) : list cell :=
  [CInt (id r); CFloat (amount r); CText (date r); CText (category r);
   CText (note r)].

Definition summary_cells (p : string * real) : list cell :=
  [CText (fst p); CFloat (snd p)].

(** [{"category": [...], "month": [...]}.get(args.by, ["Metric",
    "Value"])]. *)
Definition summary_headers (by_ : option string) : list string :=
  match by_ with
  | Some b =>
      if (b =? "category")%string then ["Category"; "Total"]
      else if (b =? "month")%string then ["Month"; "Total"]
      else ["Metric"; "Value"]
  | None => ["Metric"; "Value"]
  end.

(** What [print_table] wrote, followed by the line of the [except] clause
    when it raised. *)
Definition table_output (rows : list (list cell)) (headers : list string)
  : list string :=
  match print_table rows headers with
  | (lines, Returned) => lines
  | (lines, IndexError) =>
      lines ++ ["Error: " ++ index_error_text]
  end.

(** The [try] block of [main] with its [except] clause: the store left and
    the lines printed. *)
Definition main (s : store) (a : args) : store * list string :=
  match a with
  | ArgsAdd amount date category note =>
      match add_expense s amount date (Some category) (Some note) with
      | (s', Ok _) => (s', ["✅ Added."])
      | (s', Raise e) => (s', ["Error: " ++ error_text e])
      end
  | ArgsList start end_ category limit =>
      match list_expenses s start end_ category limit with
      | Ok rows =>
          (s, table_output (map expense_cells rows)
                ["ID"; "Amount"; "Date"; "Category"; "Note"])
      | Raise e => (s, ["Error: " ++ error_text e])
      end
  | ArgsUpdate i amount date category note =>
      match update_expense s i amount date category note with
      | (s', Ok _) => (s', ["✅ Updated."])
      | (s', Raise e) => (s', ["Error: " ++ error_text e])
      end
  | ArgsDelete i =>
      match delete_expense s i with
      | (s', Ok _) => (s', ["🗑️ Deleted."])
      | (s', Raise e) => (s', ["Error: " ++ error_text e])
      end
  | ArgsSummary start end_ by_ category =>
      (s, table_output
            (map summary_cells (summarize s start end_ by_ category))
            (summary_headers by_))
  end.

End Presentation.

(** * Properties *)

(** ** Text comparison *)

Lemma ascii_compare_refl (a : ascii) : (a ?= a)%char = Eq.
Proof. unfold Ascii.compare. apply N.compare_refl. Qed.

Lemma ascii_compare_lt_trans (a b c : ascii) :
  (a ?= b)%char = Lt -> (b ?= c)%char = Lt -> (a ?= c)%char = Lt.
Proof.
  unfold Ascii.compare. rewrite !N.compare_lt_iff. apply N.lt_trans.
Qed.

Lemma string_compare_refl (s : string) : (s ?= s)%string = Eq.
Proof.
  induction s as [|a s IH]; simpl; [reflexivity|].
  now rewrite ascii_compare_refl.
Qed.

Lemma string_compare_lt_trans (s1 s2 s3 : string) :
  (s1 ?= s2)%string = Lt -> (s2 ?= s3)%string = Lt -> (s1 ?= s3)%string = Lt.
Proof.
  revert s2 s3.
  induction s1 as [|a s1 IH]; intros [|b s2] [|c s3]; simpl;
    try discriminate; try reflexivity.
  destruct (a ?= b)%char eqn:Hab; try discriminate;
    destruct (b ?= c)%char eqn:Hbc; try discriminate; intros H12 H23.
  - apply Ascii.compare_eq_iff in Hab, Hbc. subst.
    rewrite ascii_compare_refl. eauto.
  - apply Ascii.compare_eq_iff in Hab. subst. now rewrite Hbc.
  - apply Ascii.compare_eq_iff in Hbc. subst. now rewrite Hab.
  - now rewrite (ascii_compare_lt_trans _ _ _ Hab Hbc).
Qed.

Lemma text_leb_total (a b : string) :
  Sql.text_leb a b = true \/ Sql.text_leb b a = true.
Proof. apply String.leb_total. Qed.

Lemma text_leb_trans (a b c : string) :
  Sql.text_leb a b = true -> Sql.text_leb b c = true ->
  Sql.text_leb a c = true.
Proof.
  unfold Sql.text_leb, String.leb.
  destruct (a ?= b)%string eqn:Hab; try discriminate;
    destruct (b ?= c)%string eqn:Hbc; try discriminate; intros _ _.
  - apply String.compare_eq_iff in Hab. subst. now rewrite Hbc.
  - apply String.compare_eq_iff in Hab. subst. now rewrite Hbc.
  - apply String.compare_eq_iff in Hbc. subst. now rewrite Hab.
  - now rewrite (string_compare_lt_trans _ _ _ Hab Hbc).
Qed.

(** ** [ORDER BY] sorts and keeps the rows *)

Lemma sorted_by_weaken {A : Type} (before : A -> A -> bool)
    (Q : A -> A -> Prop) (l : list A) :
  (forall x y, before x y = true -> Q x y) ->
  sorted_by before l -> StronglySorted Q l.
Proof.
  intros HQ. unfold sorted_by.
  induction 1 as [|x l Hl IH Hx]; constructor; [exact IH|].
  eapply Forall_impl; [|exact Hx]. intros y. apply HQ.
Qed.

Section OrderByFacts.

Context {A : Type} (before : A -> A -> bool).

Hypothesis before_total : forall x y, before x y = true \/ before y x = true.
Hypothesis before_trans :
  forall x y z, before x y = true -> before y z = true -> before x z = true.

Lemma insert_by_perm (x : A) (l : list A) :
  Permutation (Sql.insert_by before x l) (x :: l).
Proof.
  induction l as [|y l IH]; simpl; [reflexivity|].
  destruct (before x y); [reflexivity|].
  rewrite IH. apply perm_swap.
Qed.

Lemma order_by_perm (l : list A) : Permutation (Sql.order_by before l) l.
Proof.
  induction l as [|x l IH]; simpl; [reflexivity|].
  rewrite insert_by_perm. now constructor.
Qed.

Lemma order_by_In (l : list A) (x : A) :
  In x (Sql.order_by before l) <-> In x l.
Proof.
  split; apply Permutation_in; [|symmetry]; apply order_by_perm.
Qed.

Lemma order_by_length (l : list A) :
  List.length (Sql.order_by before l) = List.length l.
Proof. apply Permutation_length, order_by_perm. Qed.

Lemma insert_by_sorted (x : A) (l : list A) :
  sorted_by before l ->
  sorted_by before (Sql.insert_by before x l).
Proof.
  unfold sorted_by.
  induction 1 as [|y l Hl IH Hy]; simpl.
  - repeat constructor.
  - destruct (before x y) eqn:Hxy.
    + constructor; [now constructor|].
      constructor; [exact Hxy|].
      eapply Forall_impl; [|exact Hy].
      intros z Hz. exact (before_trans _ _ _ Hxy Hz).
    + constructor; [exact IH|].
      assert (Hyx : before y x = true).
      { destruct (before_total x y) as [H|H]; [congruence|exact H]. }
      eapply Permutation_Forall; [symmetry; apply insert_by_perm|].
      now constructor.
Qed.

Lemma order_by_sorted (l : list A) :
  sorted_by before (Sql.order_by before l).
Proof.
  induction l as [|x l IH]; simpl; [constructor|].
  now apply insert_by_sorted.
Qed.

End OrderByFacts.

(** ** Filters and order of [list_expenses] *)

Section ListFacts.

Context {R : SqlReal}.

Lemma filters_selects (start end_ cat : option string) (r : expense) :
  holds_all (filters start end_ cat) r = selects start end_ cat r.
Proof.
  unfold holds_all, filters, selects, Py.truthy, Py.str_truthy, Sql.text_leb.
  destruct start as [a|], end_ as [b|], cat as [c|];
    repeat match goal with
           | |- context [(?v =? "")%string] => destruct (v =? "")%string
           end;
    simpl; unfold Sql.text_leb; rewrite ?andb_true_r, ?andb_assoc;
    reflexivity.
Qed.

Lemma filter_filters (start end_ cat : option string) (l : list expense) :
  filter (holds_all (filters start end_ cat)) l =
  filter (selects start end_ cat) l.
Proof. apply filter_ext. intro r. apply filters_selects. Qed.

Lemma date_desc_id_desc_total (r1 r2 : expense) :
  date_desc_id_desc r1 r2 = true \/ date_desc_id_desc r2 r1 = true.
Proof.
  unfold date_desc_id_desc.
  rewrite (String.compare_antisym (date r1) (date r2)).
  destruct (date r2 ?= date r1)%string; simpl; auto.
  rewrite !Z.leb_le. lia.
Qed.

Lemma date_desc_id_desc_trans (r1 r2 r3 : expense) :
  date_desc_id_desc r1 r2 = true -> date_desc_id_desc r2 r3 = true ->
  date_desc_id_desc r1 r3 = true.
Proof.
  unfold date_desc_id_desc.
  destruct (date r2 ?= date r1)%string eqn:H21; try discriminate;
    destruct (date r3 ?= date r2)%string eqn:H32; try discriminate.
  - apply String.compare_eq_iff in H21, H32. rewrite H32, H21.
    rewrite string_compare_refl, !Z.leb_le. lia.
  - apply String.compare_eq_iff in H21. rewrite <- H21, H32. reflexivity.
  - apply String.compare_eq_iff in H32. rewrite H32, H21. reflexivity.
  - now rewrite (string_compare_lt_trans _ _ _ H32 H21).
Qed.

Lemma date_desc_id_desc_listed (r1 r2 : expense) :
  date_desc_id_desc r1 r2 = true <-> listed_before r1 r2.
Proof.
  unfold date_desc_id_desc, listed_before, String.ltb.
  destruct (date r2 ?= date r1)%string eqn:H.
  - apply String.compare_eq_iff in H. rewrite Z.leb_le.
    split; [auto|]. intros [?|[_ ?]]; [discriminate|assumption].
  - split; auto.
  - split; [discriminate|]. intros [?|[E _]]; [discriminate|].
    rewrite E, string_compare_refl in H. discriminate.
Qed.

Lemma selects_satisfies (start end_ cat : option string) (r : expense) :
  selects start end_ cat r = true <-> satisfies start end_ cat r.
Proof.
  unfold selects, satisfies. rewrite !andb_true_iff.
  assert (Hopt : forall (x : option string) (f : string -> bool),
             match x with
             | Some v => (v =? "")%string || f v
             | None => true
             end = true <->
             (forall v, x = Some v -> v <> "" -> f v = true)).
  { intros [v|] f.
    - rewrite orb_true_iff, String.eqb_eq. split.
      + intros [H|H] w E Hw; injection E as <-; [contradiction|exact H].
      + intro H. destruct (string_dec v ""); [now left|right; auto].
    - split; [discriminate|reflexivity]. }
  rewrite (Hopt start (fun v => (v <=? date r)%string)).
  rewrite (Hopt end_ (fun v => (date r <=? v)%string)).
  rewrite (Hopt cat (fun v => (category r =? v)%string)).
  setoid_rewrite String.eqb_eq. tauto.
Qed.

Lemma list_expenses_unlimited (s : store) (start end_ cat : option string) :
  list_expenses s start end_ cat None =
  Ok (ordered_selection s start end_ cat).
Proof.
  unfold list_expenses, ordered_selection. now rewrite filter_filters.
Qed.

Lemma ordered_selection_In
    (s : store) (start end_ cat : option string) (r : expense) :
  In r (ordered_selection s start end_ cat) <->
  In r (rows s) /\ selects start end_ cat r = true.
Proof.
  unfold ordered_selection. rewrite order_by_In. apply filter_In.
Qed.

Lemma ordered_selection_sorted
    (s : store) (start end_ cat : option string) :
  StronglySorted listed_before (ordered_selection s start end_ cat).
Proof.
  eapply sorted_by_weaken;
    [|apply order_by_sorted;
       [apply date_desc_id_desc_total|apply date_desc_id_desc_trans]].
  intros r1 r2. apply date_desc_id_desc_listed.
Qed.

Lemma fits_int64_spec (n : Z) :
  Sql.fits_int64 n = true <-> in_int64 n.
Proof.
  unfold Sql.fits_int64, in_int64.
  rewrite andb_true_iff, Z.leb_le, Z.ltb_lt. reflexivity.
Qed.

Lemma fits_int64_false (n : Z) :
  Sql.fits_int64 n = false <-> out_of_int64 n.
Proof.
  unfold out_of_int64. pose proof (fits_int64_spec n) as H.
  destruct (Sql.fits_int64 n).
  - split; [discriminate|]. intro Ho.
    assert (Hin : in_int64 n) by now apply H.
    unfold in_int64 in Hin. lia.
  - split; [|reflexivity]. intros _.
    destruct (Z_lt_le_dec n (- 2 ^ 63)); [now left|].
    destruct (Z_lt_le_dec n (2 ^ 63)); [|now right].
    assert (false = true) by (apply H; unfold in_int64; lia).
    discriminate.
Qed.

Lemma bind_int_fits (n : Z) :
  Sql.fits_int64 n = true -> Sql.bind_int n = Some n.
Proof. unfold Sql.bind_int. now intros ->. Qed.

Lemma bind_int_overflow (n : Z) :
  Sql.fits_int64 n = false -> Sql.bind_int n = None.
Proof. unfold Sql.bind_int. now intros ->. Qed.

(** What [list_expenses] does with a limit: a limit that is bound and does
    not fit raises, any other applies [LIMIT] to the ordered selection. *)
Lemma list_expenses_cases
    (s : store) (start end_ cat : option string) (limit : option Z) :
  (exists l rest,
     list_expenses s start end_ cat limit = Ok l /\
     ordered_selection s start end_ cat = (l ++ rest)%list) \/
  (list_expenses s start end_ cat limit = Raise OverflowError /\
   limit_overflows limit).
Proof.
  destruct limit as [n|].
  - unfold list_expenses, Py.int_truthy, Sql.bind_int, Sql.limit.
    rewrite filter_filters. fold (ordered_selection s start end_ cat).
    destruct (Z.eqb_spec n 0).
    { left. exists (ordered_selection s start end_ cat), [].
      now rewrite app_nil_r. }
    simpl. destruct (Sql.fits_int64 n) eqn:Hfit.
    + left. destruct (n <? 0).
      * exists (ordered_selection s start end_ cat), [].
        now rewrite app_nil_r.
      * do 2 eexists. split; [reflexivity|].
        symmetry. apply firstn_skipn.
    + right. split; [reflexivity|]. exists n. split; [reflexivity|].
      now apply fits_int64_false.
  - left. rewrite list_expenses_unlimited.
    exists (ordered_selection s start end_ cat), [].
    now rewrite app_nil_r.
Qed.

(** C4, as amended: [list_expenses] without a limit returns exactly the rows
    that satisfy every filter that is supplied and is not the empty string
    (date >= start, date <= end, category equal byte for byte), each as
    often as the table holds it, ordered by date descending and then id
    descending. *)
Theorem list_expenses_filters_and_order
    (s : store) (start end_ cat : option string) :
  exists l,
    list_expenses s start end_ cat None = Ok l /\
    Permutation l (filter (selects start end_ cat) (rows s)) /\
    (forall r, In r l <-> In r (rows s) /\ satisfies start end_ cat r) /\
    StronglySorted listed_before l.
Proof.
  exists (ordered_selection s start end_ cat).
  split; [apply list_expenses_unlimited|split; [|split]].
  - apply order_by_perm.
  - intro r. rewrite <- selects_satisfies. apply ordered_selection_In.
  - apply ordered_selection_sorted.
Qed.

(** C2, as amended: for every positive limit N that fits a signed 64-bit
    integer, [list_expenses] returns the first N rows of the result it
    returns without a limit, hence at most N rows; without a limit it
    returns every selected row. *)
Theorem list_expenses_limit
    (s : store) (start end_ cat : option string) (n : Z) :
  0 < n -> n < 2 ^ 63 ->
  exists full limited,
    list_expenses s start end_ cat None = Ok full /\
    list_expenses s start end_ cat (Some n) = Ok limited /\
    limited = firstn (Z.to_nat n) full /\
    Z.of_nat (List.length limited) <= n /\
    List.length full =
      List.length (filter (selects start end_ cat) (rows s)).
Proof.
  intros Hn Hmax.
  exists (ordered_selection s start end_ cat),
         (firstn (Z.to_nat n) (ordered_selection s start end_ cat)).
  split; [apply list_expenses_unlimited|split; [|split; [|split]]].
  - unfold list_expenses, Py.int_truthy, Sql.limit.
    rewrite filter_filters. fold (ordered_selection s start end_ cat).
    destruct (Z.eqb_spec n 0); [lia|]. simpl.
    rewrite bind_int_fits by (apply fits_int64_spec; unfold in_int64; lia).
    destruct (Z.ltb_spec n 0); [lia|reflexivity].
  - reflexivity.
  - rewrite length_firstn. lia.
  - unfold ordered_selection. apply order_by_length.
Qed.

(** A limit of 2^63 or more does not fit: [list_expenses] raises
    [OverflowError]. *)
Lemma list_expenses_limit_too_large
    (s : store) (start end_ cat : option string) (n : Z) :
  2 ^ 63 <= n ->
  list_expenses s start end_ cat (Some n) = Raise OverflowError.
Proof.
  intro Hn. unfold list_expenses, Py.int_truthy.
  destruct (Z.eqb_spec n 0); [lia|]. simpl.
  rewrite bind_int_overflow; [reflexivity|].
  apply fits_int64_false. now right.
Qed.

(** X10: a limit that is zero, or negative and not below -2^63, bounds
    nothing: [list_expenses] returns what it returns without a limit. *)
Lemma list_expenses_limit_nonpositive
    (s : store) (start end_ cat : option string) (n : Z) :
  n <= 0 -> - 2 ^ 63 <= n ->
  list_expenses s start end_ cat (Some n) =
  list_expenses s start end_ cat None.
Proof.
  intros Hn Hmin. unfold list_expenses, Py.int_truthy, Sql.limit.
  destruct (Z.eqb_spec n 0); [reflexivity|]. simpl.
  rewrite bind_int_fits by (apply fits_int64_spec; unfold in_int64; lia).
  destruct (Z.ltb_spec n 0); [reflexivity|lia].
Qed.

(** C1, as amended: a category filter equal to the empty string is the
    absence of a category filter, in [list_expenses] and in [summarize];
    the rows listed are those that the start and end filters select,
    whatever their category. *)
Theorem empty_category_is_no_filter
    (s : store) (start end_ by_ : option string) (limit : option Z) :
  list_expenses s start end_ (Some "") limit =
    list_expenses s start end_ None limit /\
  summarize s start end_ by_ (Some "") = summarize s start end_ by_ None /\
  (exists l,
     list_expenses s start end_ (Some "") None = Ok l /\
     forall r, In r l <-> In r (rows s) /\ satisfies start end_ None r).
Proof.
  assert (E : filters start end_ (Some "") = filters start end_ None)
    by reflexivity.
  split; [|split].
  - unfold list_expenses. now rewrite E.
  - unfold summarize. now rewrite E.
  - exists (ordered_selection s start end_ None). split.
    + rewrite <- list_expenses_unlimited. unfold list_expenses.
      now rewrite E.
    + intro r. rewrite ordered_selection_In. apply and_iff_compat_l.
      apply selects_satisfies.
Qed.

(** C10: a start or an end equal to the empty string is the absence of that
    bound, in [list_expenses] and in [summarize]. *)
Theorem empty_date_bound_is_no_filter
    (s : store) (start end_ by_ cat : option string) (limit : option Z) :
  list_expenses s (Some "") end_ cat limit =
    list_expenses s None end_ cat limit /\
  list_expenses s start (Some "") cat limit =
    list_expenses s start None cat limit /\
  summarize s (Some "") end_ by_ cat = summarize s None end_ by_ cat /\
  summarize s start (Some "") by_ cat = summarize s start None by_ cat.
Proof.
  assert (Hs : filters (Some "") end_ cat = filters None end_ cat)
    by reflexivity.
  assert (He : filters start (Some "") cat = filters start None cat)
    by (destruct start; reflexivity).
  unfold list_expenses, summarize. rewrite Hs, He. repeat split.
Qed.

End ListFacts.

(** ** [update_expense] and [delete_expense] *)

Section WriteFacts.

Context {R : SqlReal}.

Lemma assign_update_sets
    (a : option pyfloat) (d c n : option string) (r r' : expense) :
  fold_left assign (update_sets a d c n) (Some r) = Some r' ->
  id r' = id r /\
  (a = None -> amount r' = amount r) /\
  (d = None -> date r' = date r) /\
  (c = None -> category r' = category r) /\
  (n = None -> note r' = note r) /\
  written_by_update a d c n r'.
Proof.
  unfold update_sets, written_by_update.
  destruct a as [[x|]|], d as [d|], c as [c|], n as [n|]; simpl;
    unfold amount_constraint;
    try destruct (real_nonneg x); simpl;
    intro H; try discriminate; injection H as <-; simpl;
    repeat split; intros; congruence.
Qed.

Lemma update_rows_kept
    (expense_id : Z) (a : option pyfloat) (d c n : option string)
    (l l' : list expense) (k : Z) :
  update_rows (update_sets a d c n) expense_id l = Some (l', k) ->
  Forall2 (kept_by_update expense_id a d c n) l l'.
Proof.
  revert l' k.
  induction l as [|r l IH]; simpl; intros l' k H.
  - injection H as <- <-. constructor.
  - destruct (Z.eqb_spec (id r) expense_id) as [E|E].
    + destruct (fold_left assign _ (Some r)) as [r'|] eqn:Hr;
        [|discriminate].
      destruct (update_rows _ expense_id l) as [[l'' k']|];
        [|discriminate].
      injection H as <- <-.
      apply assign_update_sets in Hr.
      constructor; [|eapply IH; reflexivity].
      unfold kept_by_update. intuition congruence.
    + destruct (update_rows _ expense_id l) as [[l'' k']|];
        [|discriminate].
      injection H as <- <-.
      constructor; [|eapply IH; reflexivity].
      unfold kept_by_update. intuition congruence.
Qed.

Lemma update_rows_written
    (expense_id : Z) (a : option pyfloat) (d c n : option string)
    (l l' : list expense) (k : Z) :
  update_rows (update_sets a d c n) expense_id l = Some (l', k) ->
  Forall2 (fun r r' => id r = expense_id -> written_by_update a d c n r')
          l l'.
Proof.
  revert l' k.
  induction l as [|r l IH]; simpl; intros l' k H.
  - injection H as <- <-. constructor.
  - destruct (Z.eqb_spec (id r) expense_id) as [E|E].
    + destruct (fold_left assign _ (Some r)) as [r'|] eqn:Hr;
        [|discriminate].
      destruct (update_rows _ expense_id l) as [[l'' k']|];
        [|discriminate].
      injection H as <- <-.
      apply assign_update_sets in Hr.
      constructor; [tauto|eapply IH; reflexivity].
    + destruct (update_rows _ expense_id l) as [[l'' k']|];
        [|discriminate].
      injection H as <- <-.
      constructor; [tauto|eapply IH; reflexivity].
Qed.

Lemma filter_none {A : Type} (f : A -> bool) (l : list A) :
  (forall x, In x l -> f x = false) -> filter f l = [].
Proof.
  induction l as [|x l IH]; simpl; intro H; [reflexivity|].
  rewrite (H x) by auto. apply IH. auto.
Qed.

Lemma update_rows_absent
    (sets : list assignment) (expense_id : Z) (l : list expense) :
  (forall r, In r l -> id r <> expense_id) ->
  update_rows sets expense_id l = Some (l, 0).
Proof.
  induction l as [|r l IH]; simpl; intro H; [reflexivity|].
  destruct (Z.eqb_spec (id r) expense_id) as [E|E].
  - exfalso. apply (H r); auto.
  - rewrite IH; auto.
Qed.

Lemma kept_by_update_refl
    (expense_id : Z) (a : option pyfloat) (d c n : option string)
    (l : list expense) :
  Forall2 (kept_by_update expense_id a d c n) l l.
Proof.
  induction l; constructor; auto. unfold kept_by_update. intuition.
Qed.

Lemma update_sets_nil (a : option pyfloat) (d c n : option string) :
  update_sets a d c n = [] <->
  a = None /\ d = None /\ c = None /\ n = None.
Proof.
  unfold update_sets. split.
  - destruct a, d, c, n; try discriminate. auto.
  - intros [-> [-> [-> ->]]]. reflexivity.
Qed.

(** The five ways in which [update_expense] ends. *)
Lemma update_expense_outcomes
    (s : store) (i : Z) (a : option pyfloat) (d c n : option string) :
  (update_sets a d c n = [] /\
   update_expense s i a d c n = (s, Raise NoFieldsProvided)) \/
  (update_sets a d c n <> [] /\ out_of_int64 i /\
   update_expense s i a d c n = (s, Raise OverflowError)) \/
  (update_sets a d c n <> [] /\ in_int64 i /\
   update_rows (update_sets a d c n) i (rows s) = None /\
   update_expense s i a d c n = (s, Raise IntegrityError)) \/
  (update_sets a d c n <> [] /\ in_int64 i /\
   (exists l', update_rows (update_sets a d c n) i (rows s) = Some (l', 0)) /\
   update_expense s i a d c n = (s, Raise (NotFound i))) \/
  (update_sets a d c n <> [] /\ in_int64 i /\
   exists l' k,
     update_rows (update_sets a d c n) i (rows s) = Some (l', k) /\
     k <> 0 /\
     update_expense s i a d c n = ({| rows := l'; seq := seq s |}, Ok tt)).
Proof.
  unfold update_expense, sql_update, Sql.bind_int.
  destruct (update_sets a d c n) as [|x sets] eqn:Hsets; [now left|].
  right. rewrite <- Hsets.
  assert (Hne : update_sets a d c n <> []) by (rewrite Hsets; discriminate).
  destruct (Sql.fits_int64 i) eqn:Hfit.
  - apply fits_int64_spec in Hfit. right.
    destruct (update_rows _ i (rows s)) as [[l' k]|]; [|now left].
    right. destruct (Z.eqb_spec k 0) as [->|Hk].
    + left. eauto.
    + right. split; [exact Hne|split; [exact Hfit|]]. eauto.
  - apply fits_int64_false in Hfit. now left.
Qed.

Lemma update_expense_kept
    (s : store) (expense_id : Z) (a : option pyfloat)
    (d c n : option string) :
  seq (fst (update_expense s expense_id a d c n)) = seq s /\
  Forall2 (kept_by_update expense_id a d c n)
          (rows s) (rows (fst (update_expense s expense_id a d c n))).
Proof.
  destruct (update_expense_outcomes s expense_id a d c n)
    as [[_ E]|[[_ [_ E]]|[[_ [_ [_ E]]]|[[_ [_ [_ E]]]|
        [_ [_ [l' [k [Hl [_ E]]]]]]]]]];
    rewrite E; simpl;
    (split; [reflexivity|]); try apply kept_by_update_refl.
  eapply update_rows_kept. exact Hl.
Qed.

(** C5: whatever [update_expense] does to the store, every row keeps its
    place and its id, a row with another id is unchanged, a field for which
    no value is supplied keeps its value in every row, and the rowid counter
    is unchanged; when the call succeeds, the rows with the given id hold
    the supplied values in the supplied fields. *)
Theorem update_expense_changes_only_supplied
    (s : store) (expense_id : Z) (a : option pyfloat)
    (d c n : option string) :
  let out := update_expense s expense_id a d c n in
  seq (fst out) = seq s /\
  Forall2 (kept_by_update expense_id a d c n) (rows s) (rows (fst out)) /\
  (snd out = Ok tt ->
   Forall2 (fun r r' => id r = expense_id -> written_by_update a d c n r')
           (rows s) (rows (fst out))).
Proof.
  cbv zeta.
  destruct (update_expense_kept s expense_id a d c n) as [Hseq Hkept].
  split; [exact Hseq|split; [exact Hkept|]].
  destruct (update_expense_outcomes s expense_id a d c n)
    as [[_ E]|[[_ [_ E]]|[[_ [_ [_ E]]]|[[_ [_ [_ E]]]|
        [_ [_ [l' [k [Hl [_ E]]]]]]]]]];
    rewrite E; simpl; try discriminate.
  intros _. eapply update_rows_written. exact Hl.
Qed.

(** C6: without any of the optional fields [update_expense] raises the
    "no fields" error and leaves the store as it was, for every id. *)
Theorem update_expense_no_fields (s : store) (expense_id : Z) :
  update_expense s expense_id None None None None =
  (s, Raise NoFieldsProvided).
Proof. reflexivity. Qed.

(** The three ways in which [delete_expense] ends. *)
Lemma delete_expense_outcomes (s : store) (i : Z) :
  (out_of_int64 i /\ delete_expense s i = (s, Raise OverflowError)) \/
  (in_int64 i /\ filter (fun r => id r =? i) (rows s) = [] /\
   delete_expense s i = (s, Raise (NotFound i))) \/
  (in_int64 i /\ filter (fun r => id r =? i) (rows s) <> [] /\
   delete_expense s i =
   ({| rows := filter (fun r => negb (id r =? i)) (rows s);
       seq := seq s |}, Ok tt)).
Proof.
  unfold delete_expense, sql_delete, Sql.bind_int.
  destruct (Sql.fits_int64 i) eqn:Hfit.
  - apply fits_int64_spec in Hfit. right.
    destruct (filter (fun r => id r =? i) (rows s)) as [|r l]; simpl.
    + left. auto.
    + right. split; [exact Hfit|]. split; [discriminate|].
      destruct (Z.eqb_spec (Z.pos (Pos.of_succ_nat (List.length l))) 0);
        [lia|reflexivity].
  - apply fits_int64_false in Hfit. now left.
Qed.

Lemma missing_id_update
    (s : store) (i : Z) (a : option pyfloat) (d c n : option string) :
  (forall r, In r (rows s) -> id r <> i) ->
  a <> None \/ d <> None \/ c <> None \/ n <> None ->
  (in_int64 i -> update_expense s i a d c n = (s, Raise (NotFound i))) /\
  (out_of_int64 i ->
   update_expense s i a d c n = (s, Raise OverflowError)).
Proof.
  intros Habs Hsome.
  pose proof (update_rows_absent (update_sets a d c n) _ _ Habs) as Hrows.
  destruct (update_expense_outcomes s i a d c n)
    as [[Hnil _]|[[_ [Hout E]]|[[_ [Hin [Hl _]]]|[[_ [Hin [_ E]]]|
        [_ [_ [l' [k [Hl [Hk _]]]]]]]]]].
  - apply update_sets_nil in Hnil. intuition congruence.
  - split; [|now intros _]. unfold in_int64, out_of_int64 in *. lia.
  - congruence.
  - split; [now intros _|]. unfold in_int64, out_of_int64 in *. lia.
  - rewrite Hrows in Hl. injection Hl as _ <-. contradiction.
Qed.

Lemma missing_id_delete (s : store) (i : Z) :
  (forall r, In r (rows s) -> id r <> i) ->
  (in_int64 i -> delete_expense s i = (s, Raise (NotFound i))) /\
  (out_of_int64 i -> delete_expense s i = (s, Raise OverflowError)).
Proof.
  intro Habs.
  assert (Hnone : filter (fun r => id r =? i) (rows s) = []).
  { apply filter_none. intros r Hr. apply Z.eqb_neq. exact (Habs r Hr). }
  destruct (delete_expense_outcomes s i)
    as [[Hout E]|[[Hin [_ E]]|[_ [Hne _]]]].
  - split; [|now intros _]. unfold in_int64, out_of_int64 in *. lia.
  - split; [now intros _|]. unfold in_int64, out_of_int64 in *. lia.
  - contradiction.
Qed.

(** C7, as amended: for an id that no row carries and that is a signed
    64-bit integer, [update_expense] with at least one field supplied and
    [delete_expense] both raise the not-found error; for an id outside
    that range both raise [OverflowError] when the id is bound.  The store
    is left as it was in every case. *)
Theorem missing_id_not_found (s : store) (expense_id : Z) :
  (forall r, In r (rows s) -> id r <> expense_id) ->
  (in_int64 expense_id ->
   (forall a d c n,
      a <> None \/ d <> None \/ c <> None \/ n <> None ->
      update_expense s expense_id a d c n =
      (s, Raise (NotFound expense_id))) /\
   delete_expense s expense_id = (s, Raise (NotFound expense_id))) /\
  (out_of_int64 expense_id ->
   (forall a d c n,
      a <> None \/ d <> None \/ c <> None \/ n <> None ->
      update_expense s expense_id a d c n = (s, Raise OverflowError)) /\
   delete_expense s expense_id = (s, Raise OverflowError)).
Proof.
  intro Habs. split; intro Hrange; split.
  - intros a d c n Hsome.
    now apply (missing_id_update s expense_id a d c n Habs Hsome).
  - now apply (missing_id_delete s expense_id Habs).
  - intros a d c n Hsome.
    now apply (missing_id_update s expense_id a d c n Habs Hsome).
  - now apply (missing_id_delete s expense_id Habs).
Qed.

End WriteFacts.

(** ** [add_expense] and the rowids it hands out *)

Section AddFacts.

Context {R : SqlReal}.

Lemma or_empty_some (v : string) : Py.or_empty (Some v) = v.
Proof.
  unfold Py.or_empty, Py.str_truthy.
  destruct (String.eqb_spec v ""); simpl; congruence.
Qed.

Lemma max_rowid_ge (l : list expense) (r : expense) :
  In r l -> id r <= max_rowid l.
Proof.
  unfold max_rowid.
  induction l as [|r0 l IH]; simpl; [tauto|].
  intros [<-|H]; [lia|]. specialize (IH H). lia.
Qed.

Lemma next_rowid_above_seq (s : store) : seq s < next_rowid s.
Proof. unfold next_rowid. lia. Qed.

Lemma next_rowid_above_rows (s : store) (r : expense) :
  In r (rows s) -> id r < next_rowid s.
Proof. intro H. apply max_rowid_ge in H. unfold next_rowid. lia. Qed.

Lemma add_expense_ok (s : store) (x : real) (d : string)
    (c n : option string) :
  real_nonneg x = true ->
  add_expense s (Float x) d c n =
  ({| rows := rows s ++
              [mkExpense (next_rowid s) x d (Py.or_empty c) (Py.or_empty n)];
      seq := next_rowid s |}, Ok tt).
Proof.
  intro Hx. unfold add_expense, sql_insert. simpl. now rewrite Hx.
Qed.

Lemma add_expense_seq (s : store) (a : pyfloat) (d : string)
    (c n : option string) :
  match snd (add_expense s a d c n) with
  | Ok _ => seq (fst (add_expense s a d c n)) = next_rowid s
  | Raise _ => fst (add_expense s a d c n) = s
  end.
Proof.
  unfold add_expense, sql_insert.
  destruct (amount_constraint (bind_float a)); reflexivity.
Qed.

Lemma delete_expense_seq (s : store) (i : Z) :
  seq (fst (delete_expense s i)) = seq s.
Proof.
  destruct (delete_expense_outcomes s i) as [[_ E]|[[_ [_ E]]|[_ [_ E]]]];
    now rewrite E.
Qed.

Lemma step_seq_mono (s : store) (c : call) : seq s <= seq (step s c).
Proof.
  unfold step. destruct c as [a d c n|i a d c n|i]; simpl.
  - pose proof (add_expense_seq s a d c n) as H.
    pose proof (next_rowid_above_seq s).
    destruct (snd (add_expense s a d c n)); rewrite H; lia.
  - destruct (update_expense_kept s i a d c n) as [E _]. lia.
  - rewrite delete_expense_seq. lia.
Qed.

Lemma run_from_seq_mono (s : store) (h : list call) :
  seq s <= seq (run_from s h).
Proof.
  revert s. induction h as [|c h IH]; intro s; simpl; [lia|].
  pose proof (step_seq_mono s c). specialize (IH (step s c)).
  unfold run_from in *. simpl. lia.
Qed.

Lemma assigned_by_bounds (s : store) (c : call) (i : Z) :
  In i (assigned_by s c) -> seq s < i <= seq (step s c).
Proof.
  destruct c as [a d c n|j a d c n|j]; simpl; try tauto.
  pose proof (add_expense_seq s a d c n) as H.
  pose proof (next_rowid_above_seq s).
  unfold step. simpl.
  destruct (snd (add_expense s a d c n)); simpl; [|tauto].
  intros [<-|[]]. rewrite H. lia.
Qed.

(** Every rowid handed out along a history lies above the counter the
    history started from and at most at the counter it ends with. *)
Lemma assigned_from_bounds (s : store) (h : list call) (i : Z) :
  In i (assigned_from s h) -> seq s < i <= seq (run_from s h).
Proof.
  revert s. induction h as [|c h IH]; intro s; simpl; [tauto|].
  rewrite in_app_iff. intros [H|H].
  - apply assigned_by_bounds in H.
    pose proof (run_from_seq_mono (step s c) h) as Hm.
    unfold run_from in *. simpl. lia.
  - apply IH in H. pose proof (step_seq_mono s c).
    unfold run_from in *. simpl. lia.
Qed.

(** The rowids handed out along a history are pairwise distinct. *)
Lemma assigned_from_NoDup (s : store) (h : list call) :
  NoDup (assigned_from s h).
Proof.
  revert s. induction h as [|c h IH]; intro s; simpl; [constructor|].
  destruct (assigned_by s c) as [|i [|j l]] eqn:E.
  - apply IH.
  - simpl. constructor; [|apply IH].
    intro H. apply assigned_from_bounds in H.
    assert (Hi : In i (assigned_by s c)) by (rewrite E; now left).
    apply assigned_by_bounds in Hi. lia.
  - exfalso. destruct c as [a d c n|k a d c n|k]; simpl in E;
      try discriminate.
    destruct (snd (add_expense s a d c n)); discriminate.
Qed.

(** C3: after any history of calls, [add_expense] with a non-negative
    amount succeeds, the unfiltered [list_expenses] that follows returns a
    row with exactly the amount, date, category and note that were passed,
    and the id of that row was never handed out before and is carried by no
    other row. *)
Theorem add_then_list_round_trip
    (h : list call) (x : real) (d c n : string) :
  real_nonneg x = true ->
  exists (s' : store) (i : Z) (l : list expense),
    add_expense (run h) (Float x) d (Some c) (Some n) = (s', Ok tt) /\
    list_expenses s' None None None None = Ok l /\
    In (mkExpense i x d c n) l /\
    ~ In i (assigned_ids h) /\
    (forall r, In r (rows (run h)) -> id r <> i) /\
    (forall r, In r l -> id r = i -> r = mkExpense i x d c n).
Proof.
  intro Hx. eexists. exists (next_rowid (run h)). eexists.
  split; [apply add_expense_ok; exact Hx|].
  split; [apply list_expenses_unlimited|].
  rewrite !or_empty_some.
  assert (Hfresh : forall r, In r (rows (run h)) ->
                             id r <> next_rowid (run h)).
  { intros r Hr. apply next_rowid_above_rows in Hr. lia. }
  split; [|split; [|split]].
  - apply ordered_selection_In.
    simpl. split; [|reflexivity]. apply in_or_app. right. now left.
  - intro Hin. apply assigned_from_bounds in Hin.
    pose proof (next_rowid_above_seq (run h)). unfold run in *. lia.
  - exact Hfresh.
  - intros r Hr Hid.
    apply ordered_selection_In in Hr.
    destruct Hr as [Hr _]. simpl in Hr. apply in_app_or in Hr.
    destruct Hr as [Hr|[<-|[]]]; [|reflexivity].
    exfalso. exact (Hfresh r Hr Hid).
Qed.

End AddFacts.

(** ** [summarize] *)

Section SummaryFacts.

Context {R : SqlReal} {L : SqlRealLaws R}.

Lemma real_eq_refl (x : real) : real_eq x x.
Proof. unfold real_eq. destruct (real_leb_total x x); auto. Qed.

Lemma or_zero_rounded_sum (l : list real) :
  l <> [] ->
  real_eq (or_zero (sql_ROUND2 (sql_SUM l))) (real_round2 (real_sum l)).
Proof.
  destruct l as [|x l]; [congruence|]. intros _. simpl.
  destruct (real_truthy _) eqn:T; [apply real_eq_refl|].
  apply real_falsy_zero in T. unfold real_eq. tauto.
Qed.

Lemma summarize_no_grouping (s : store) (start end_ cat : option string) :
  summarize s start end_ None cat =
  [("total",
    or_zero (sql_ROUND2 (sql_SUM
      (map amount (filter (selects start end_ cat) (rows s))))))].
Proof. unfold summarize. now rewrite filter_filters. Qed.


Lemma category_label_of (r : expense) :
  category_label r = label_of_category (category r).
Proof.
  unfold category_label, Sql.coalesce_nullif_empty, label_of_category.
  now destruct (category r =? "")%string.
Qed.

Lemma group_totals_keys (key : expense -> string) (l : list expense) :
  map fst (group_totals key l) = Sql.group_keys (map key l).
Proof.
  unfold group_totals. rewrite map_map. simpl. apply map_id.
Qed.

Lemma group_keys_In (ks : list string) (k : string) :
  In k (Sql.group_keys ks) <-> In k ks.
Proof.
  unfold Sql.group_keys. rewrite order_by_In. apply nodup_In.
Qed.

Lemma group_keys_NoDup (ks : list string) : NoDup (Sql.group_keys ks).
Proof.
  unfold Sql.group_keys.
  eapply Permutation_NoDup; [symmetry; apply order_by_perm|].
  apply NoDup_nodup.
Qed.

Lemma total_desc_total (p q : string * real) :
  total_desc p q = true \/ total_desc q p = true.
Proof. unfold total_desc. destruct (real_leb_total (snd q) (snd p)); auto. Qed.

Lemma total_desc_trans (p q u : string * real) :
  total_desc p q = true -> total_desc q u = true -> total_desc p u = true.
Proof. unfold total_desc. intros H1 H2. exact (real_leb_trans _ _ _ H2 H1). Qed.

Lemma summarize_category (s : store) (start end_ cat : option string) :
  summarize s start end_ (Some "category") cat =
  Sql.order_by total_desc
    (group_totals category_label (filter (selects start end_ cat) (rows s))).
Proof. unfold summarize. simpl. now rewrite filter_filters. Qed.


Lemma grp_desc_total (p q : string * real) :
  grp_desc p q = true \/ grp_desc q p = true.
Proof. unfold grp_desc. destruct (text_leb_total (fst q) (fst p)); auto. Qed.

Lemma grp_desc_trans (p q u : string * real) :
  grp_desc p q = true -> grp_desc q u = true -> grp_desc p u = true.
Proof. unfold grp_desc. intros H1 H2. exact (text_leb_trans _ _ _ H2 H1). Qed.

(** By month, [summarize] returns one pair per distinct prefix of seven
    characters among the dates of the selected rows, the latest month
    first. *)
Lemma summarize_by_month (s : store) (start end_ cat : option string) :
  let selected := filter (selects start end_ cat) (rows s) in
  let pairs := summarize s start end_ (Some "month") cat in
  Permutation pairs (group_totals month_label selected) /\
  NoDup (map fst pairs) /\
  sorted_by grp_desc pairs.
Proof.
  cbv zeta. unfold summarize. simpl. rewrite filter_filters.
  set (groups := group_totals month_label _).
  pose proof (order_by_perm grp_desc groups) as HP.
  split; [exact HP|split].
  - eapply Permutation_NoDup;
      [symmetry; apply Permutation_map; exact HP|].
    unfold groups. rewrite group_totals_keys. apply group_keys_NoDup.
  - apply order_by_sorted; [apply grp_desc_total|apply grp_desc_trans].
Qed.

End SummaryFacts.

(** ** Invariants of the store along a history *)

Section HistoryFacts.

Context {R : SqlReal}.

Lemma kept_by_update_ids
    (i : Z) (a : option pyfloat) (d c n : option string)
    (l l' : list expense) (q : Z) :
  Forall2 (kept_by_update i a d c n) l l' ->
  Forall (fun r => id r <= q) l -> Forall (fun r => id r <= q) l'.
Proof.
  induction 1 as [|x x' m m' Hx _ IH]; intro H; [constructor|].
  inversion H as [|? ? Hq Hm]; subst. constructor; [|auto].
  destruct Hx as [E _]. lia.
Qed.

Lemma step_ids_bounded (s : store) (c : call) :
  ids_bounded s -> ids_bounded (step s c).
Proof.
  unfold ids_bounded, step. intro Hs.
  destruct c as [a d c n|i a d c n|i]; simpl.
  - unfold add_expense, sql_insert.
    destruct (amount_constraint (bind_float a)) as [x|]; simpl;
      [|exact Hs].
    apply Forall_app. split.
    + eapply Forall_impl; [|exact Hs]. intros r Hr. simpl in Hr.
      pose proof (next_rowid_above_seq s). lia.
    + repeat constructor. simpl. lia.
  - destruct (update_expense_kept s i a d c n) as [E Hk].
    rewrite E. eapply kept_by_update_ids; eauto.
  - destruct (delete_expense_outcomes s i) as [[_ E]|[[_ [_ E]]|[_ [_ E]]]];
      rewrite E; simpl; try exact Hs.
    apply Forall_forall. intros r Hr. apply filter_In in Hr.
    rewrite Forall_forall in Hs. apply Hs. tauto.
Qed.

(** After every history no row carries a rowid above the counter, so the
    rowid of the next row is the counter plus one. *)
Lemma run_ids_bounded (h : list call) : ids_bounded (run h).
Proof.
  unfold run, run_from.
  assert (H0 : ids_bounded empty_store) by constructor.
  revert H0. generalize empty_store.
  induction h as [|c h IH]; intros s Hs; simpl; [exact Hs|].
  apply IH, step_ids_bounded, Hs.
Qed.

Lemma next_rowid_after_history (h : list call) :
  next_rowid (run h) = seq (run h) + 1.
Proof.
  pose proof (run_ids_bounded h) as Hb. unfold ids_bounded in Hb.
  unfold next_rowid.
  assert (Hm : max_rowid (rows (run h)) <= Z.max 0 (seq (run h))).
  { unfold max_rowid. induction Hb as [|r l Hr _ IH]; simpl; lia. }
  pose proof (run_from_seq_mono empty_store h) as H0.
  unfold run in *. simpl in H0. lia.
Qed.

(** When a row carries the id, the id is a signed 64-bit integer, some
    field is supplied and a supplied amount is a non-negative number,
    [update_expense] succeeds and every row with that id holds the supplied
    values. *)
Lemma update_expense_succeeds
    (s : store) (expense_id : Z) (a : option pyfloat)
    (d c n : option string) :
  (exists r, In r (rows s) /\ id r = expense_id) ->
  in_int64 expense_id ->
  a <> None \/ d <> None \/ c <> None \/ n <> None ->
  (forall v, a = Some v -> exists x, v = Float x /\ real_nonneg x = true) ->
  exists s',
    update_expense s expense_id a d c n = (s', Ok tt) /\
    Forall2 (fun r r' => id r = expense_id -> written_by_update a d c n r')
            (rows s) (rows s').
Proof.
  intros Hex Hrange Hsome Ha.
  assert (Hassign : forall r, exists r',
             fold_left assign (update_sets a d c n) (Some r) = Some r').
  { intro r. unfold update_sets.
    destruct a as [v|].
    - destruct (Ha v eq_refl) as [x [-> Hx]].
      destruct d, c, n; simpl; unfold amount_constraint; rewrite Hx;
        eexists; reflexivity.
    - destruct d, c, n; simpl; eexists; reflexivity. }
  assert (Hrows : forall l, exists l' k,
             update_rows (update_sets a d c n) expense_id l = Some (l', k) /\
             0 <= k /\
             ((exists r, In r l /\ id r = expense_id) -> 0 < k) /\
             Forall2 (fun r r' => id r = expense_id ->
                                  written_by_update a d c n r') l l').
  { induction l as [|r l [l' [k [E [Hk [Hpos Hw]]]]]]; simpl.
    - exists [], 0. repeat split; try lia; [|constructor].
      intros [r [[] _]].
    - destruct (Z.eqb_spec (id r) expense_id) as [Hid|Hid].
      + destruct (Hassign r) as [r' Hr']. rewrite Hr', E.
        exists (r' :: l'), (k + 1). repeat split; try lia.
        constructor; [|exact Hw]. intros _.
        apply assign_update_sets in Hr'. tauto.
      + rewrite E. exists (r :: l'), k. repeat split; try lia.
        * intros [r0 [[<-|Hin] E0]]; [congruence|].
          apply Hpos. eauto.
        * constructor; [|exact Hw]. intro. congruence. }
  destruct (Hrows (rows s)) as [l' [k [E [_ [Hpos Hw]]]]].
  specialize (Hpos Hex).
  exists {| rows := l'; seq := seq s |}.
  split; [|exact Hw].
  destruct (update_expense_outcomes s expense_id a d c n)
    as [[Hnil _]|[[_ [Hout _]]|[[_ [_ [Hl _]]]|[[_ [_ [[l0 Hl] _]]]|
        [_ [_ [l0 [k0 [Hl [_ E0]]]]]]]]]].
  - apply update_sets_nil in Hnil. intuition congruence.
  - unfold in_int64, out_of_int64 in *. lia.
  - congruence.
  - rewrite E in Hl. injection Hl as _ ->. lia.
  - rewrite E in Hl. injection Hl as <- <-. exact E0.
Qed.

End HistoryFacts.

(** ** The exact instance obeys the laws *)

#[export] Instance ExactRealLaws : SqlRealLaws ExactReal.
Proof.
  split; simpl.
  - intros x y. rewrite !Qle_bool_iff.
    destruct (Qlt_le_dec x y) as [H|H]; [left; now apply Qlt_le_weak|now right].
  - intros x y z. rewrite !Qle_bool_iff. apply Qle_trans.
  - intros x H. apply negb_false_iff, Qeq_bool_iff in H.
    rewrite !Qle_bool_iff, H. split; apply Qle_refl.
Qed.

(** ** The theorems at concrete stores *)

(** With limit 1 the two-row store lists its most recent row only. *)
Lemma list_expenses_limit_witness :
  0 < 1 /\ 1 < 2 ^ 63 /\
  exists full limited,
    list_expenses two_rows None None None None = Ok full /\
    list_expenses two_rows None None None (Some 1) = Ok limited /\
    limited = firstn (Z.to_nat 1) full /\
    Z.of_nat (List.length limited) <= 1 /\
    List.length full =
      List.length (filter (selects None None None) (rows two_rows)).
Proof.
  split; [lia|]. split; [lia|].
  apply (list_expenses_limit two_rows None None None 1); lia.
Defined.

(** A fourth expense added after the three of the ordering example. *)
Lemma add_then_list_round_trip_witness :
  @real_nonneg ExactReal 7%Q = true /\
  exists (s' : store) (i : Z) (l : list expense),
    add_expense (run three_dates) (Float 7%Q) "2025-02-01"
      (Some "food") (Some "tea") = (s', Ok tt) /\
    list_expenses s' None None None None = Ok l /\
    In (mkExpense i 7%Q "2025-02-01" "food" "tea") l /\
    ~ In i (assigned_ids three_dates) /\
    (forall r, In r (rows (run three_dates)) -> id r <> i) /\
    (forall r, In r l ->
               id r = i -> r = mkExpense i 7%Q "2025-02-01" "food" "tea").
Proof.
  split; [reflexivity|].
  apply (add_then_list_round_trip three_dates 7%Q
           "2025-02-01" "food" "tea").
  reflexivity.
Defined.

(** No row of the two-row store carries the id 7, which is a signed 64-bit
    integer. *)
Lemma missing_id_not_found_witness :
  (forall r, In r (rows two_rows) -> id r <> 7) /\
  in_int64 7 /\
  (forall a d c n,
     a <> None \/ d <> None \/ c <> None \/ n <> None ->
     update_expense two_rows 7 a d c n = (two_rows, Raise (NotFound 7))) /\
  delete_expense two_rows 7 = (two_rows, Raise (NotFound 7)).
Proof.
  assert (H : forall r, In r (rows two_rows) -> id r <> 7).
  { simpl. intros r [<-|[<-|[]]]; simpl; lia. }
  assert (Hrange : in_int64 7) by (unfold in_int64; lia).
  split; [exact H|]. split; [exact Hrange|].
  exact (proj1 (missing_id_not_found two_rows 7 H) Hrange).
Defined.



(** The ordering example of the specification: rows dated 2025-01-01,
    2025-01-03 and 2025-01-02, added in that order, are listed as
    2025-01-03, 2025-01-02, 2025-01-01. *)
Example list_expenses_three_dates :
  exists l,
    list_expenses (run three_dates) None None None None = Ok l /\
    map date l = ["2025-01-03"; "2025-01-02"; "2025-01-01"].
Proof. eexists. split; vm_compute; reflexivity. Qed.

(** The values behind two of them. *)
Example summarize_two_rows :
  summarize two_rows None None None None = [("total", 15%Q)] /\
  summarize (@empty_store ExactReal) None None None None = [("total", 0%Q)] /\
  summarize two_rows None None (Some "category") None =
    [("uncategorized", 10%Q); ("food", 5%Q)].
Proof. repeat split. Qed.

(** ** Where the code departs from a stated property *)

(** C1 as stated fails: with category equal to the empty string,
    [list_expenses] on the two-row store also returns the row whose
    category is "food". *)
Lemma empty_category_filter_counterexample :
  ~ (forall l r,
       list_expenses two_rows None None (Some "") None = Ok l ->
       In r l -> category r = "").
Proof.
  intro H.
  specialize (H _ (mkExpense 2 5%Q "2025-01-03" "food" "lunch") eq_refl).
  assert (E : "food" = "") by (apply H; simpl; auto).
  discriminate E.
Qed.

(** C2 as stated fails: with limit 0, [list_expenses] on the two-row store
    returns two rows; and with limit 2^63 it returns no list at all, it
    raises [OverflowError]. *)
Lemma limit_zero_counterexample :
  ~ (forall l,
       list_expenses two_rows None None None (Some 0) = Ok l ->
       Z.of_nat (List.length l) <= 0) /\
  list_expenses two_rows None None None (Some (2 ^ 63)) =
    Raise OverflowError.
Proof.
  split; [|reflexivity].
  intro H. specialize (H _ eq_refl). simpl in H. lia.
Qed.

(** C4 as stated fails: with start 2025-01-02 and category equal to the
    empty string, no row of the two-row store satisfies both filters, and
    [list_expenses] returns the row of 2025-01-03. *)
Lemma supplied_filters_counterexample :
  ~ (exists l,
       list_expenses two_rows (Some "2025-01-02") None (Some "") None =
         Ok l /\
       Permutation l
         (filter (supplied_selects (Some "2025-01-02") None (Some ""))
                 (rows two_rows))).
Proof.
  intros [l [E H]]. vm_compute in E. injection E as <-.
  apply Permutation_length in H. vm_compute in H. discriminate H.
Qed.

(** C7 as stated fails: no row of the two-row store carries the id 2^63,
    and [delete_expense] and [update_expense] on it raise [OverflowError],
    not the not-found error. *)
Lemma missing_id_overflow_counterexample :
  (forall r, In r (rows two_rows) -> id r <> 2 ^ 63) /\
  delete_expense two_rows (2 ^ 63) = (two_rows, Raise OverflowError) /\
  delete_expense two_rows (2 ^ 63) <>
    (two_rows, Raise (NotFound (2 ^ 63))) /\
  update_expense two_rows (2 ^ 63) None None None (Some "x") <>
    (two_rows, Raise (NotFound (2 ^ 63))).
Proof.
  split; [|split; [|split]].
  - simpl. intros r [<-|[<-|[]]]; simpl; lia.
  - reflexivity.
  - vm_compute. discriminate.
  - vm_compute. discriminate.
Qed.


(** * Further properties of the repository *)

(** ** Failing calls, rejected amounts *)

Section WriteExtras.

Context {R : SqlReal}.

(** X1: a call of [add_expense], [update_expense] or [delete_expense] that
    raises leaves the store exactly as it was. *)
Theorem raise_leaves_store (s : store) (c : call) (e : error) :
  snd (exec s c) = Raise e -> fst (exec s c) = s.
Proof.
  destruct c as [a d c n|i a d c n|i]; simpl.
  - unfold add_expense. destruct (sql_insert _ _ _ _ _); simpl;
      [discriminate|reflexivity].
  - destruct (update_expense_outcomes s i a d c n)
      as [[_ E]|[[_ [_ E]]|[[_ [_ [_ E]]]|[[_ [_ [_ E]]]|
          [_ [_ [l' [k [_ [_ E]]]]]]]]]];
      rewrite E; simpl; try reflexivity; discriminate.
  - destruct (delete_expense_outcomes s i) as [[_ E]|[[_ [_ E]]|[_ [_ E]]]];
      rewrite E; simpl; try reflexivity; discriminate.
Qed.

Lemma rejected_amount_constraint (a : pyfloat) :
  rejected_amount a -> amount_constraint (bind_float a) = None.
Proof.
  intros [->|[x [-> Hx]]]; simpl; [reflexivity|now rewrite Hx].
Qed.

(** X2: [add_expense] with NaN or a negative amount raises the integrity
    error, inserts nothing and hands out no rowid. *)
Theorem add_expense_rejects (s : store) (a : pyfloat) (d : string)
    (c n : option string) :
  rejected_amount a ->
  add_expense s a d c n = (s, Raise IntegrityError) /\
  assigned_by s (Add a d c n) = [].
Proof.
  intro Ha. apply rejected_amount_constraint in Ha.
  assert (E : add_expense s a d c n = (s, Raise IntegrityError)).
  { unfold add_expense, sql_insert. now rewrite Ha. }
  split; [exact E|]. simpl. now rewrite E.
Qed.

Lemma update_rows_rejected
    (sets : list assignment) (a : pyfloat) (i : Z) (l : list expense) :
  rejected_amount a ->
  (exists r, In r l /\ id r = i) ->
  update_rows (SetAmount a :: sets) i l = None.
Proof.
  intros Ha. apply rejected_amount_constraint in Ha.
  assert (Hnone : forall ss, fold_left assign ss None = None)
    by (induction ss; simpl; auto).
  induction l as [|r l IH]; intros [r0 [Hin Hid]]; [destruct Hin|].
  simpl. destruct (Z.eqb_spec (id r) i) as [E|E].
  - rewrite Ha, Hnone. reflexivity.
  - destruct Hin as [<-|Hin]; [contradiction|].
    rewrite IH by eauto. reflexivity.
Qed.

(** X3: on an id that a row carries, [update_expense] with NaN or a
    negative amount raises the integrity error, whatever other fields are
    supplied, and leaves the store as it was.  (An id outside the signed
    64-bit range, which no table of SQLite holds, raises [OverflowError]
    first.) *)
Theorem update_expense_rejects
    (s : store) (i : Z) (a : pyfloat) (d c n : option string) :
  rejected_amount a ->
  (exists r, In r (rows s) /\ id r = i) ->
  (in_int64 i ->
   update_expense s i (Some a) d c n = (s, Raise IntegrityError)) /\
  (out_of_int64 i ->
   update_expense s i (Some a) d c n = (s, Raise OverflowError)).
Proof.
  intros Ha Hex.
  assert (Hrows : update_rows (update_sets (Some a) d c n) i (rows s) = None).
  { unfold update_sets. simpl.
    exact (update_rows_rejected _ a i (rows s) Ha Hex). }
  destruct (update_expense_outcomes s i (Some a) d c n)
    as [[Hnil _]|[[_ [Hout E]]|[[_ [Hin [_ E]]]|[[_ [_ [[l' Hl] _]]]|
        [_ [_ [l' [k [Hl _]]]]]]]]].
  - discriminate Hnil.
  - split; [|now intros _]. unfold in_int64, out_of_int64 in *. lia.
  - split; [now intros _|]. unfold in_int64, out_of_int64 in *. lia.
  - congruence.
  - congruence.
Qed.

End WriteExtras.

(** ** The schema along a history, deletion, repeated updates *)

Section SchemaFacts.

Context {R : SqlReal}.

Lemma key_ascending_ids (l : list expense) :
  key_ascending l <-> StronglySorted Z.lt (map id l).
Proof.
  unfold key_ascending. induction l as [|r l IH]; simpl.
  - split; constructor.
  - split; intro H; inversion H as [|? ? Hl Hr]; subst; constructor;
      try (apply IH; exact Hl).
    + rewrite Forall_map. exact Hr.
    + rewrite Forall_map in Hr. exact Hr.
Qed.

Lemma kept_by_update_map_id
    (i : Z) (a : option pyfloat) (d c n : option string)
    (l l' : list expense) :
  Forall2 (kept_by_update i a d c n) l l' -> map id l' = map id l.
Proof.
  induction 1 as [|x x' m m' Hx _ IH]; simpl; [reflexivity|].
  destruct Hx as [E _]. now rewrite E, IH.
Qed.

Lemma key_ascending_filter (f : expense -> bool) (l : list expense) :
  key_ascending l -> key_ascending (filter f l).
Proof.
  unfold key_ascending.
  induction 1 as [|r l Hl IH Hr]; simpl; [constructor|].
  destruct (f r); [|exact IH]. constructor; [exact IH|].
  apply Forall_forall. intros x Hx. apply filter_In in Hx.
  rewrite Forall_forall in Hr. apply Hr. tauto.
Qed.

Lemma key_ascending_snoc (l : list expense) (r : expense) :
  key_ascending l -> Forall (fun x => id x < id r) l ->
  key_ascending (l ++ [r]).
Proof.
  unfold key_ascending.
  induction 1 as [|x l Hl IH Hx]; simpl; intro Hr.
  - repeat constructor.
  - inversion Hr as [|? ? Hxr Hlr]; subst. constructor; [auto|].
    apply Forall_app. split; [exact Hx|]. repeat constructor. exact Hxr.
Qed.

Lemma key_ascending_unique (l : list expense) (r1 r2 : expense) :
  key_ascending l -> In r1 l -> In r2 l -> id r1 = id r2 -> r1 = r2.
Proof.
  unfold key_ascending.
  induction 1 as [|x l Hl IH Hx]; simpl; [tauto|].
  rewrite Forall_forall in Hx.
  intros [<-|H1] [<-|H2] E; auto.
  - specialize (Hx _ H2). lia.
  - specialize (Hx _ H1). lia.
Qed.

Lemma max_rowid_nonneg (l : list expense) : 0 <= max_rowid l.
Proof. unfold max_rowid. induction l; simpl; lia. Qed.

Lemma assign_update_sets_nonneg
    (a : option pyfloat) (d c n : option string) (r r' : expense) :
  fold_left assign (update_sets a d c n) (Some r) = Some r' ->
  real_nonneg (amount r) = true -> real_nonneg (amount r') = true.
Proof.
  unfold update_sets.
  destruct a as [[x|]|], d as [d|], c as [c|], n as [n|]; simpl;
    unfold amount_constraint;
    try destruct (real_nonneg x) eqn:Hx; simpl;
    intro H; try discriminate; injection H as <-; simpl; auto.
Qed.

Lemma update_rows_nonneg
    (i : Z) (a : option pyfloat) (d c n : option string)
    (l l' : list expense) (k : Z) :
  update_rows (update_sets a d c n) i l = Some (l', k) ->
  Forall (fun r => real_nonneg (amount r) = true) l ->
  Forall (fun r => real_nonneg (amount r) = true) l'.
Proof.
  revert l' k.
  induction l as [|r l IH]; simpl; intros l' k H Hl.
  - injection H as <- <-. constructor.
  - inversion Hl as [|? ? Hr Hl']; subst.
    destruct (id r =? i).
    + destruct (fold_left assign _ (Some r)) as [r'|] eqn:Hr';
        [|discriminate].
      destruct (update_rows _ i l) as [[l'' k']|]; [|discriminate].
      injection H as <- <-.
      constructor; [|eapply IH; eauto].
      eapply assign_update_sets_nonneg; eauto.
    + destruct (update_rows _ i l) as [[l'' k']|]; [|discriminate].
      injection H as <- <-. constructor; [exact Hr|eapply IH; eauto].
Qed.

Lemma update_expense_cases
    (s : store) (i : Z) (a : option pyfloat) (d c n : option string) :
  fst (update_expense s i a d c n) = s \/
  exists l' k,
    update_rows (update_sets a d c n) i (rows s) = Some (l', k) /\
    k <> 0 /\
    update_expense s i a d c n = ({| rows := l'; seq := seq s |}, Ok tt).
Proof.
  destruct (update_expense_outcomes s i a d c n)
    as [[_ E]|[[_ [_ E]]|[[_ [_ [_ E]]]|[[_ [_ [_ E]]]|
        [_ [_ [l' [k [Hl [Hk E]]]]]]]]]];
    try (left; now rewrite E).
  right. exists l', k. auto.
Qed.

Lemma step_schema_ok (s : store) (c : call) :
  schema_ok s -> schema_ok (step s c).
Proof.
  unfold schema_ok, step. intros [Hkey [Hid Hamt]].
  destruct c as [a d c n|i a d c n|i]; simpl.
  - unfold add_expense, sql_insert.
    destruct (amount_constraint (bind_float a)) as [x|] eqn:Hx; simpl;
      [|auto].
    assert (Hnext : Forall (fun r => id r < next_rowid s) (rows s)).
    { apply Forall_forall. intros r Hr.
      now apply next_rowid_above_rows. }
    pose proof (next_rowid_above_seq s) as Hseq.
    pose proof (max_rowid_nonneg (rows s)) as Hmax.
    split; [|split].
    + apply key_ascending_snoc; [exact Hkey|exact Hnext].
    + apply Forall_app. split.
      * eapply Forall_impl; [|exact Hid]. simpl. intros r Hr. lia.
      * repeat constructor; simpl; unfold next_rowid; lia.
    + apply Forall_app. split; [exact Hamt|]. repeat constructor. simpl.
      destruct a as [y|]; simpl in Hx; [|discriminate].
      destruct (real_nonneg y) eqn:Hy; [|discriminate].
      now injection Hx as <-.
  - destruct (update_expense_cases s i a d c n) as [E|[l' [k [Hl [_ E]]]]];
      rewrite E; simpl; [auto|].
    pose proof (update_rows_kept _ _ _ _ _ _ _ _ Hl) as Hk.
    pose proof (kept_by_update_map_id _ _ _ _ _ _ _ Hk) as Hmap.
    split; [|split].
    + apply key_ascending_ids. rewrite Hmap.
      now apply key_ascending_ids.
    + rewrite <- Forall_map with (f := id) (P := fun z => 0 < z <= seq s).
      rewrite Hmap, Forall_map. exact Hid.
    + eapply update_rows_nonneg; eauto.
  - destruct (delete_expense_outcomes s i) as [[_ E]|[[_ [_ E]]|[_ [_ E]]]];
      rewrite E; simpl; auto.
    split; [|split].
    + now apply key_ascending_filter.
    + apply Forall_forall. intros r Hr. apply filter_In in Hr.
      rewrite Forall_forall in Hid. apply Hid. tauto.
    + apply Forall_forall. intros r Hr. apply filter_In in Hr.
      rewrite Forall_forall in Hamt. apply Hamt. tauto.
Qed.

(** X4: after every history of calls the table satisfies its schema: the
    ids are pairwise distinct and ascend along the table, each lies between
    1 and the rowid counter, and every stored amount is non-negative. *)
Theorem history_keeps_schema (h : list call) : schema_ok (run h).
Proof.
  unfold run, run_from.
  assert (H0 : schema_ok empty_store).
  { unfold schema_ok, key_ascending. simpl. repeat constructor. }
  revert H0. generalize empty_store.
  induction h as [|c h IH]; intros s Hs; simpl; [exact Hs|].
  apply IH. apply step_schema_ok. exact Hs.
Qed.

End SchemaFacts.

Section RowidFacts.

Context {R : SqlReal}.

Lemma assigned_by_at_most_one (s : store) (c : call) :
  assigned_by s c = [] \/ exists i, assigned_by s c = [i].
Proof.
  destruct c as [a d c n|i a d c n|i]; simpl; auto.
  destruct (snd (add_expense s a d c n)); eauto.
Qed.

Lemma step_rows_ids (s : store) (c : call) (r : expense) :
  In r (rows (step s c)) ->
  In (id r) (map id (rows s)) \/ In (id r) (assigned_by s c).
Proof.
  unfold step. destruct c as [a d c n|i a d c n|i]; simpl.
  - unfold add_expense, sql_insert.
    destruct (amount_constraint (bind_float a)); simpl.
    + intro H. apply in_app_or in H. destruct H as [H|[<-|[]]].
      * left. now apply in_map.
      * right. now left.
    + intro H. left. now apply in_map.
  - intro H. left.
    destruct (update_expense_kept s i a d c n) as [_ Hk].
    rewrite <- (kept_by_update_map_id _ _ _ _ _ _ _ Hk).
    now apply in_map.
  - destruct (delete_expense_outcomes s i) as [[_ E]|[[_ [_ E]]|[_ [_ E]]]];
      rewrite E; simpl; intro H; left; apply in_map; try exact H.
    apply filter_In in H. tauto.
Qed.

Lemma run_from_rows_ids (s : store) (h : list call) (r : expense) :
  In r (rows (run_from s h)) ->
  In (id r) (map id (rows s)) \/ In (id r) (assigned_from s h).
Proof.
  revert s. induction h as [|c h IH]; intro s; simpl.
  - intro H. left. now apply in_map.
  - intro H. apply IH in H. rewrite in_app_iff.
    destruct H as [H|H]; [|auto].
    apply in_map_iff in H. destruct H as [r0 [E H]].
    apply step_rows_ids in H. rewrite E in H. tauto.
Qed.

Lemma assigned_from_ascending (s : store) (h : list call) :
  StronglySorted Z.lt (assigned_from s h).
Proof.
  revert s. induction h as [|c h IH]; intro s; simpl; [constructor|].
  destruct (assigned_by_at_most_one s c) as [E|[i E]]; rewrite E; simpl.
  - apply IH.
  - constructor; [apply IH|].
    assert (Hi : In i (assigned_by s c)) by (rewrite E; now left).
    apply assigned_by_bounds in Hi.
    apply Forall_forall. intros j Hj.
    apply assigned_from_bounds in Hj. lia.
Qed.

(** X5: along every history the rowids handed out by [add_expense] grow
    strictly, also across deletions, so that none is handed out twice; and
    every row of the table carries one of them. *)
Theorem rowids_never_reused (h : list call) :
  StronglySorted Z.lt (assigned_ids h) /\
  NoDup (assigned_ids h) /\
  (forall r, In r (rows (run h)) -> In (id r) (assigned_ids h)).
Proof.
  unfold assigned_ids, run. split; [|split].
  - apply assigned_from_ascending.
  - pose proof (assigned_from_ascending empty_store h) as H.
    induction H as [|i l Hl IH Hi]; constructor; [|exact IH].
    intro Hin. rewrite Forall_forall in Hi. specialize (Hi _ Hin). lia.
  - intros r Hr. apply run_from_rows_ids in Hr.
    destruct Hr as [[]|Hr]. exact Hr.
Qed.

(** X6: when a row carries the id, [delete_expense] succeeds and removes
    that row and no other: the unfiltered list afterwards holds exactly the
    other rows, the rowid counter is unchanged, and deleting the same id
    again raises the not-found error.  (An id outside the signed 64-bit
    range, which no table of SQLite holds, raises [OverflowError].) *)
Theorem delete_expense_removes (s : store) (i : Z) :
  (exists r, In r (rows s) /\ id r = i) ->
  (in_int64 i ->
   exists s' l,
     delete_expense s i = (s', Ok tt) /\
     seq s' = seq s /\
     list_expenses s' None None None None = Ok l /\
     (forall r, In r l <-> In r (rows s) /\ id r <> i) /\
     delete_expense s' i = (s', Raise (NotFound i))) /\
  (out_of_int64 i -> delete_expense s i = (s, Raise OverflowError)).
Proof.
  intros [r0 [Hin Hid]].
  assert (Hsome : filter (fun r => id r =? i) (rows s) <> []).
  { assert (H : In r0 (filter (fun r => id r =? i) (rows s))).
    { apply filter_In. split; [exact Hin|]. now apply Z.eqb_eq. }
    intro E. rewrite E in H. destruct H. }
  split.
  - intro Hrange.
    exists {| rows := filter (fun r => negb (id r =? i)) (rows s);
              seq := seq s |}.
    eexists.
    split; [|split; [reflexivity|split;
                       [apply list_expenses_unlimited|split]]].
    + destruct (delete_expense_outcomes s i)
        as [[Hout _]|[[_ [Hnone _]]|[_ [_ E]]]].
      * unfold in_int64, out_of_int64 in *. lia.
      * contradiction.
      * exact E.
    + intro r. rewrite ordered_selection_In. simpl.
      rewrite filter_In, negb_true_iff, Z.eqb_neq. tauto.
    + apply missing_id_delete; [|exact Hrange]. simpl.
      intros r Hr. apply filter_In in Hr. destruct Hr as [_ Hr].
      apply negb_true_iff, Z.eqb_neq in Hr. exact Hr.
  - intro Hout.
    destruct (delete_expense_outcomes s i)
      as [[_ E]|[[Hrange _]|[Hrange _]]]; [exact E| |];
      unfold in_int64, out_of_int64 in *; lia.
Qed.

(** X7: deleting the row that [add_expense] has just inserted gives back
    the table as it was before the call, while the counter keeps the rowid,
    so that the next row gets the rowid after it.  (A rowid outside the
    signed 64-bit range, which no table of SQLite holds, cannot be passed
    to [delete_expense]: binding it raises [OverflowError].) *)
Theorem add_then_delete (s : store) (x : real) (d : string)
    (c n : option string) :
  real_nonneg x = true ->
  (in_int64 (next_rowid s) ->
   delete_expense (fst (add_expense s (Float x) d c n)) (next_rowid s) =
     ({| rows := rows s; seq := next_rowid s |}, Ok tt)) /\
  (out_of_int64 (next_rowid s) ->
   delete_expense (fst (add_expense s (Float x) d c n)) (next_rowid s) =
     (fst (add_expense s (Float x) d c n), Raise OverflowError)) /\
  next_rowid {| rows := rows s; seq := next_rowid s |} = next_rowid s + 1.
Proof.
  intros Hx. rewrite (add_expense_ok s x d c n Hx). simpl.
  assert (Hother : forall r, In r (rows s) ->
                             (id r =? next_rowid s) = false).
  { intros r Hr. apply Z.eqb_neq.
    apply next_rowid_above_rows in Hr. lia. }
  split; [|split].
  - intro Hrange. unfold delete_expense, sql_delete.
    rewrite bind_int_fits by now apply fits_int64_spec. simpl.
    rewrite !filter_app. simpl. rewrite Z.eqb_refl. simpl.
    rewrite (filter_none _ (rows s) Hother). simpl.
    rewrite app_nil_r. f_equal. f_equal.
    clear Hx Hrange. induction (rows s) as [|r l IH]; simpl; [reflexivity|].
    rewrite (Hother r) by now left. simpl. f_equal.
    apply IH. intros r' Hr'. apply Hother. now right.
  - intro Hout. unfold delete_expense.
    rewrite bind_int_overflow by now apply fits_int64_false.
    reflexivity.
  - assert (Hm : forall r, In r (rows s) -> id r < next_rowid s)
      by (intros r Hr; now apply next_rowid_above_rows).
    unfold next_rowid at 1. simpl.
    assert (Hmax : max_rowid (rows s) <= next_rowid s).
    { unfold next_rowid. lia. }
    lia.
Qed.

End RowidFacts.

Section UpdateFacts.

Context {R : SqlReal}.

Lemma Forall2_In_l {A B : Type} (P : A -> B -> Prop)
    (l : list A) (l' : list B) (x : A) :
  Forall2 P l l' -> In x l -> exists y, In y l' /\ P x y.
Proof.
  induction 1 as [|a b m m' Hab _ IH]; simpl; [tauto|].
  intros [<-|H]; [eauto|].
  destruct (IH H) as [y [Hy Hxy]]. eauto.
Qed.

Lemma Forall2_and {A B : Type} (P Q : A -> B -> Prop)
    (l : list A) (l' : list B) :
  Forall2 P l l' -> Forall2 Q l l' ->
  Forall2 (fun x y => P x y /\ Q x y) l l'.
Proof.
  induction 1 as [|a b m m' Hab _ IH]; intro HQ;
    inversion HQ; subst; constructor; auto.
Qed.

(** X8: on a table with distinct ids, [update_expense] on an id that a row
    carries, with some field supplied and no rejected amount, succeeds, and
    the unfiltered list afterwards holds exactly one row with that id: it
    has the supplied values in the supplied fields and the values of the
    old row in the others.  (An id outside the signed 64-bit range, which
    no table of SQLite holds, raises [OverflowError].) *)
Theorem update_then_list
    (s : store) (i : Z) (a : option pyfloat) (d c n : option string) :
  key_ascending (rows s) ->
  (exists r, In r (rows s) /\ id r = i) ->
  a <> None \/ d <> None \/ c <> None \/ n <> None ->
  (forall v, a = Some v -> exists x, v = Float x /\ real_nonneg x = true) ->
  (in_int64 i ->
   exists (s' : store) (r r' : expense) (l : list expense),
     update_expense s i a d c n = (s', Ok tt) /\
     In r (rows s) /\ id r = i /\
     list_expenses s' None None None None = Ok l /\
     In r' l /\
     kept_by_update i a d c n r r' /\
     written_by_update a d c n r' /\
     (forall r'', In r'' l -> id r'' = i -> r'' = r')) /\
  (out_of_int64 i ->
   update_expense s i a d c n = (s, Raise OverflowError)).
Proof.
  intros Hkey [r [Hr Hid]] Hsome Ha. split.
  - intro Hrange.
    destruct (update_expense_succeeds s i a d c n) as [s' [E Hw]];
      eauto.
    destruct (update_expense_kept s i a d c n) as [_ Hk].
    rewrite E in Hk. simpl in Hk.
    destruct (Forall2_In_l _ _ _ r (Forall2_and _ _ _ _ Hk Hw) Hr)
      as [r' [Hr' [Hkept Hwritten]]].
    exists s', r, r', (ordered_selection s' None None None).
    assert (Hkey' : key_ascending (rows s')).
    { apply key_ascending_ids.
      rewrite (kept_by_update_map_id _ _ _ _ _ _ _ Hk).
      now apply key_ascending_ids. }
    split; [exact E|]. split; [exact Hr|]. split; [exact Hid|].
    split; [apply list_expenses_unlimited|].
    split; [|split; [exact Hkept|split; [exact (Hwritten Hid)|]]].
    + apply ordered_selection_In. split; [exact Hr'|reflexivity].
    + intros r'' Hin Hid''.
      apply ordered_selection_In in Hin. destruct Hin as [Hin _].
      apply (key_ascending_unique (rows s')); auto.
      destruct Hkept as [E' _]. lia.
  - intro Hout.
    destruct (update_expense_outcomes s i a d c n)
      as [[Hnil _]|[[_ [_ E]]|[[_ [Hin _]]|[[_ [Hin _]]|[_ [Hin _]]]]]];
      try exact E;
      try (unfold in_int64, out_of_int64 in *; lia).
    apply update_sets_nil in Hnil. intuition congruence.
Qed.

Lemma assign_update_sets_again
    (a : option pyfloat) (d c n : option string) (r r' : expense) :
  fold_left assign (update_sets a d c n) (Some r) = Some r' ->
  fold_left assign (update_sets a d c n) (Some r') = Some r'.
Proof.
  unfold update_sets.
  destruct a as [[x|]|], d as [d|], c as [c|], n as [n|]; simpl;
    unfold amount_constraint;
    try destruct (real_nonneg x) eqn:Hx; simpl;
    intro H; try discriminate; injection H as <-; simpl;
    try reflexivity; now destruct r.
Qed.

Lemma update_rows_again
    (i : Z) (a : option pyfloat) (d c n : option string)
    (l l' : list expense) (k : Z) :
  update_rows (update_sets a d c n) i l = Some (l', k) ->
  update_rows (update_sets a d c n) i l' = Some (l', k).
Proof.
  revert l' k.
  induction l as [|r l IH]; simpl; intros l' k H.
  - injection H as <- <-. reflexivity.
  - destruct (Z.eqb_spec (id r) i) as [E|E].
    + destruct (fold_left assign _ (Some r)) as [r'|] eqn:Hr;
        [|discriminate].
      destruct (update_rows _ i l) as [[l'' k']|] eqn:Hl; [|discriminate].
      injection H as <- <-. simpl.
      pose proof (assign_update_sets _ _ _ _ _ _ Hr) as [Hid _].
      rewrite Hid. destruct (Z.eqb_spec (id r) i); [|contradiction].
      rewrite (assign_update_sets_again _ _ _ _ _ _ Hr).
      now rewrite (IH _ _ eq_refl).
    + destruct (update_rows _ i l) as [[l'' k']|] eqn:Hl; [|discriminate].
      injection H as <- <-. simpl.
      destruct (Z.eqb_spec (id r) i); [contradiction|].
      now rewrite (IH _ _ eq_refl).
Qed.

(** X9: [update_expense] is idempotent: repeating a call on the store that
    it left gives the same outcome and changes nothing more. *)
Theorem update_expense_idempotent
    (s : store) (i : Z) (a : option pyfloat) (d c n : option string) :
  update_expense (fst (update_expense s i a d c n)) i a d c n =
  update_expense s i a d c n.
Proof.
  destruct (update_expense_outcomes s i a d c n)
    as [[_ E]|[[_ [_ E]]|[[_ [_ [_ E]]]|[[_ [_ [_ E]]]|
        [Hne [Hin [l' [k [Hl [Hk E]]]]]]]]]];
    try (rewrite E; simpl; exact E).
  rewrite E. simpl.
  pose proof (update_rows_again _ _ _ _ _ _ _ _ Hl) as Hagain.
  destruct (update_expense_outcomes {| rows := l'; seq := seq s |}
              i a d c n)
    as [[Hnil _]|[[_ [Hout _]]|[[_ [_ [Hl1 _]]]|[[_ [_ [[l1 Hl1] _]]]|
        [_ [_ [l1 [k1 [Hl1 [_ E1]]]]]]]]]]; simpl in *.
  - contradiction.
  - unfold in_int64, out_of_int64 in *. lia.
  - congruence.
  - rewrite Hagain in Hl1. injection Hl1 as _ ->. contradiction.
  - rewrite Hagain in Hl1. injection Hl1 as <- <-. exact E1.
Qed.

End UpdateFacts.

(** ** More on [list_expenses] *)

Section OrderByFilter.

Context {A : Type} (before : A -> A -> bool) (f : A -> bool).

Hypothesis before_total : forall x y, before x y = true \/ before y x = true.
Hypothesis before_trans :
  forall x y z, before x y = true -> before y z = true -> before x z = true.

Lemma insert_by_first (x : A) (l : list A) :
  Forall (fun y => before x y = true) l -> Sql.insert_by before x l = x :: l.
Proof.
  destruct 1 as [|y l Hy _]; simpl; [reflexivity|]. now rewrite Hy.
Qed.

Lemma insert_by_filter (x : A) (l : list A) :
  sorted_by before l ->
  filter f (Sql.insert_by before x l) =
  if f x then Sql.insert_by before x (filter f l) else filter f l.
Proof.
  unfold sorted_by.
  induction 1 as [|y l Hl IH Hy]; simpl.
  - now destruct (f x).
  - destruct (before x y) eqn:Hxy; simpl.
    + destruct (f x); [|reflexivity].
      rewrite insert_by_first; [reflexivity|].
      assert (Hall : Forall (fun z => before x z = true) (y :: l)).
      { constructor; [exact Hxy|].
        eapply Forall_impl; [|exact Hy].
        intros z Hz. exact (before_trans _ _ _ Hxy Hz). }
      apply Forall_forall. intros z Hz.
      rewrite Forall_forall in Hall. apply Hall.
      change (In z (filter f (y :: l))) in Hz.
      apply filter_In in Hz. tauto.
    + rewrite IH. destruct (f y), (f x); simpl; try reflexivity.
      now rewrite Hxy.
Qed.

(** Selecting rows before or after [ORDER BY] gives the same list. *)
Lemma order_by_filter (l : list A) :
  filter f (Sql.order_by before l) = Sql.order_by before (filter f l).
Proof.
  induction l as [|x l IH]; simpl; [reflexivity|].
  rewrite insert_by_filter by now apply order_by_sorted.
  rewrite IH. now destruct (f x).
Qed.

End OrderByFilter.

Section ListExtras.

Context {R : SqlReal}.

Lemma StronglySorted_app_l {A : Type} (P : A -> A -> Prop)
    (l1 l2 : list A) :
  StronglySorted P (l1 ++ l2) -> StronglySorted P l1.
Proof.
  induction l1 as [|x l1 IH]; simpl; intro H; [constructor|].
  inversion H as [|? ? Hl Hx]; subst. constructor; [auto|].
  apply Forall_app in Hx. tauto.
Qed.

Lemma filter_twice {A : Type} (f g : A -> bool) (l : list A) :
  filter g (filter f l) = filter (fun x => f x && g x) l.
Proof.
  induction l as [|x l IH]; simpl; [reflexivity|].
  destruct (f x); simpl; [|exact IH]. destruct (g x); now rewrite IH.
Qed.

Lemma list_expenses_overflow
    (s : store) (start end_ cat : option string) (limit : option Z) :
  limit_overflows limit ->
  list_expenses s start end_ cat limit = Raise OverflowError.
Proof.
  intros [n [-> Hout]]. unfold list_expenses, Py.int_truthy.
  destruct (Z.eqb_spec n 0) as [->|_].
  { unfold out_of_int64 in Hout. lia. }
  simpl. rewrite bind_int_overflow; [reflexivity|].
  now apply fits_int64_false.
Qed.

(** X11: whatever the limit (absent, positive, zero or negative), as long
    as it can be bound, the result of [list_expenses] is a prefix of its
    result without a limit: it is ordered by date descending then id
    descending, and every row in it is a row of the table that satisfies
    the filters.  A limit outside the signed 64-bit range raises
    [OverflowError]. *)
Theorem list_expenses_limit_sound
    (s : store) (start end_ cat : option string) (limit : option Z) :
  (limit_overflows limit /\
   list_expenses s start end_ cat limit = Raise OverflowError) \/
  (~ limit_overflows limit /\
   exists l rest,
     list_expenses s start end_ cat limit = Ok l /\
     list_expenses s start end_ cat None = Ok (l ++ rest)%list /\
     StronglySorted listed_before l /\
     (forall r, In r l -> In r (rows s) /\ satisfies start end_ cat r)).
Proof.
  destruct (list_expenses_cases s start end_ cat limit)
    as [[l [rest [E Hfull]]]|[E Hover]]; [right|left; auto].
  split.
  - intro Hover.
    rewrite (list_expenses_overflow s start end_ cat limit Hover) in E.
    discriminate E.
  - exists l, rest. split; [exact E|].
    split; [rewrite list_expenses_unlimited; now rewrite Hfull|].
    pose proof (ordered_selection_sorted s start end_ cat) as Hs.
    rewrite Hfull in Hs. split.
    + exact (StronglySorted_app_l _ _ _ Hs).
    + intros r Hr. rewrite <- selects_satisfies.
      apply ordered_selection_In. rewrite Hfull.
      apply in_or_app. now left.
Qed.

Lemma text_leb_ltb_false (a b : string) :
  Sql.text_leb a b = true -> (b <? a)%string = false.
Proof.
  unfold Sql.text_leb, String.leb, String.ltb.
  rewrite (String.compare_antisym a b).
  destruct (b ?= a)%string; simpl; congruence.
Qed.

Lemma inverted_range_selects_nothing
    (start end_ : string) (cat : option string) (l : list expense) :
  end_ <> "" -> (end_ <? start)%string = true ->
  filter (selects (Some start) (Some end_) cat) l = [].
Proof.
  intros Hne Hlt. apply filter_none. intros r _.
  unfold selects.
  destruct (String.eqb_spec start "") as [->|_].
  { destruct end_; discriminate. }
  destruct (String.eqb_spec end_ "") as [|_]; [contradiction|]. simpl.
  destruct (start <=? date r)%string eqn:H1; [|reflexivity].
  destruct (date r <=? end_)%string eqn:H2; [|reflexivity].
  pose proof (text_leb_trans _ _ _ H1 H2) as H.
  apply text_leb_ltb_false in H. congruence.
Qed.

(** X12: when the end bound is not empty and sorts before the start bound,
    no row is selected: [list_expenses] returns the empty list for every
    category and every limit that can be bound (a limit outside the signed
    64-bit range raises [OverflowError]). *)
Theorem list_expenses_inverted_range
    (s : store) (start end_ : string) (cat : option string)
    (limit : option Z) :
  end_ <> "" -> (end_ <? start)%string = true ->
  (limit_overflows limit /\
   list_expenses s (Some start) (Some end_) cat limit =
   Raise OverflowError) \/
  (~ limit_overflows limit /\
   list_expenses s (Some start) (Some end_) cat limit = Ok []).
Proof.
  intros Hne Hlt.
  destruct (list_expenses_cases s (Some start) (Some end_) cat limit)
    as [[l [rest [E Hfull]]]|[E Hover]]; [right|left; auto].
  split.
  - intro Hover.
    rewrite (list_expenses_overflow s _ _ cat limit Hover) in E.
    discriminate E.
  - unfold ordered_selection in Hfull.
    rewrite (inverted_range_selects_nothing _ _ _ _ Hne Hlt) in Hfull.
    simpl in Hfull. symmetry in Hfull. apply app_eq_nil in Hfull.
    destruct Hfull as [-> _]. exact E.
Qed.

(** X13: a category filter that is not empty selects from the listing
    without it: [list_expenses] with the category is the listing without
    the category, in the same order, restricted to the rows with that
    category. *)
Theorem list_expenses_category_refines
    (s : store) (start end_ : option string) (c : string) :
  c <> "" ->
  exists l,
    list_expenses s start end_ None None = Ok l /\
    list_expenses s start end_ (Some c) None =
    Ok (filter (fun r => (category r =? c)%string) l).
Proof.
  intro Hc. exists (ordered_selection s start end_ None).
  split; [apply list_expenses_unlimited|].
  rewrite list_expenses_unlimited. f_equal. unfold ordered_selection.
  rewrite (order_by_filter date_desc_id_desc _
             date_desc_id_desc_total date_desc_id_desc_trans).
  f_equal. rewrite filter_twice. apply filter_ext. intro r.
  unfold selects. destruct (String.eqb_spec c ""); [contradiction|].
  simpl. now rewrite andb_true_r.
Qed.

End ListExtras.

(** ** More on [summarize] *)

Section SummaryExtras.

Context {R : SqlReal}.

(** X14: a [by] that is neither "category" nor "month" is no grouping:
    [summarize] returns the single total, as it does without [by]. *)
Theorem summarize_unknown_grouping
    (s : store) (start end_ cat : option string) (b : string) :
  b <> "category" -> b <> "month" ->
  summarize s start end_ (Some b) cat = summarize s start end_ None cat.
Proof.
  intros H1 H2. unfold summarize.
  destruct (String.eqb_spec b "category"); [contradiction|].
  destruct (String.eqb_spec b "month"); [contradiction|reflexivity].
Qed.

Lemma text_leb_neq_ltb (a b : string) :
  Sql.text_leb a b = true -> a <> b -> (a <? b)%string = true.
Proof.
  unfold Sql.text_leb, String.leb, String.ltb.
  destruct (a ?= b)%string eqn:E; try discriminate; [|reflexivity].
  apply String.compare_eq_iff in E. contradiction.
Qed.

Lemma sorted_by_NoDup_strict (l : list (string * real)) :
  sorted_by grp_desc l -> NoDup (map fst l) ->
  StronglySorted (fun p q => (fst q <? fst p)%string = true) l.
Proof.
  unfold sorted_by.
  induction 1 as [|p l Hl IH Hp]; simpl; intro Hnd; [constructor|].
  inversion Hnd as [|? ? Hnotin Hnd']; subst.
  constructor; [auto|].
  apply Forall_forall. intros q Hq.
  rewrite Forall_forall in Hp. specialize (Hp q Hq).
  apply text_leb_neq_ltb; [exact Hp|].
  intro E. apply Hnotin. rewrite <- E. now apply in_map.
Qed.


Lemma grouped_empty_iff (s : store) (start end_ cat : option string) :
  (summarize s start end_ (Some "category") cat = [] <->
   filter (selects start end_ cat) (rows s) = []) /\
  (summarize s start end_ (Some "month") cat = [] <->
   filter (selects start end_ cat) (rows s) = []).
Proof.
  assert (Hkeys : forall (key : expense -> string) (l : list expense),
             group_totals key l = [] <-> l = []).
  { intros key l. split.
    - intro H. destruct l as [|r l]; [reflexivity|].
      assert (Hin : In (key r) (map fst (group_totals key (r :: l)))).
      { rewrite group_totals_keys. apply group_keys_In. now left. }
      rewrite H in Hin. destruct Hin.
    - intros ->. reflexivity. }
  assert (Hord : forall (before : string * real -> string * real -> bool)
                        (l : list (string * real)),
             Sql.order_by before l = [] <-> l = []).
  { intros before l. split.
    - intro H. pose proof (order_by_length before l) as Hlen.
      rewrite H in Hlen. destruct l; [reflexivity|discriminate].
    - intros ->. reflexivity. }
  split.
  - rewrite summarize_category, Hord. apply Hkeys.
  - unfold summarize. simpl. rewrite filter_filters, Hord. apply Hkeys.
Qed.

(** X16: [summarize] returns the empty list exactly when it groups, by
    category or by month, and the filters select no row; without grouping
    it always returns a pair. *)
Theorem summarize_empty_iff
    (s : store) (start end_ by_ cat : option string) :
  summarize s start end_ by_ cat = [] <->
  (by_ = Some "category" \/ by_ = Some "month") /\
  filter (selects start end_ cat) (rows s) = [].
Proof.
  destruct (grouped_empty_iff s start end_ cat) as [Hc Hm].
  split.
  - intro H. destruct by_ as [b|].
    + destruct (String.eqb_spec b "category") as [->|Hb1].
      { split; [now left|]. now apply Hc. }
      destruct (String.eqb_spec b "month") as [->|Hb2].
      { split; [now right|]. now apply Hm. }
      exfalso. unfold summarize in H.
      destruct (String.eqb_spec b "category"); [contradiction|].
      destruct (String.eqb_spec b "month"); [contradiction|].
      discriminate H.
    + discriminate H.
  - intros [[->| ->] Hsel]; [now apply Hc|now apply Hm].
Qed.

End SummaryExtras.

(** ** Month labels of ASCII dates *)

Lemma all_ascii_head (c : ascii) (s : string) :
  all_ascii (String c s) = true ->
  Sql.is_nul c = false /\ Sql.is_lead c = false /\ all_ascii s = true.
Proof.
  simpl. rewrite !andb_true_iff, N.ltb_lt, N.ltb_lt.
  intros [[H0 H1] Hs]. unfold Sql.is_nul, Sql.is_lead.
  split; [apply N.eqb_neq; lia|]. split; [apply N.leb_gt; lia|exact Hs].
Qed.

Lemma take_chars_ascii (n : nat) (s rest : string) :
  all_ascii s = true ->
  Sql.take_chars n false s = substring 0 n s /\
  Sql.take_chars n false (s ++ String Ascii.zero rest) = substring 0 n s.
Proof.
  revert n. induction s as [|c s IH]; intros n H.
  - simpl. now destruct n.
  - apply all_ascii_head in H. destruct H as [Hnul [Hlead Hs]].
    cbn [Sql.take_chars append andb]. rewrite Hnul.
    destruct n as [|n]; [split; reflexivity|].
    rewrite Hlead. destruct (IH n Hs) as [E1 E2].
    simpl. now rewrite E1, E2.
Qed.

(** X17: on a date made of ASCII characters other than NUL, as every date
    in the format YYYY-MM-DD is, the month label is the first seven bytes
    of the date; and a NUL character ends the text that [substr] reads:
    what follows it does not reach the label. *)
Theorem month_label_ascii (s : string) :
  all_ascii s = true ->
  Sql.substr_1_7 s = substring 0 7 s /\
  forall rest,
    Sql.substr_1_7 (s ++ String Ascii.zero rest) = substring 0 7 s.
Proof.
  intro H. unfold Sql.substr_1_7. split.
  - now apply (take_chars_ascii 7 s "").
  - intro rest. now apply take_chars_ascii.
Qed.

(** ** [print_table] *)

Lemma py_len_app (a b : string) :
  py_len (a ++ b) = (py_len a + py_len b)%nat.
Proof. induction a as [|c a IH]; simpl; [reflexivity|]. rewrite IH. lia. Qed.

Lemma py_len_repeat (c : ascii) (n : nat) :
  Sql.is_cont c = false -> py_len (repeat_char c n) = n.
Proof.
  intro Hc. induction n as [|n IH]; simpl; [reflexivity|].
  now rewrite Hc, IH.
Qed.

Lemma py_len_ljust (w : nat) (s : string) :
  (py_len s <= w)%nat -> py_len (ljust w s) = w.
Proof.
  intro H. unfold ljust. rewrite py_len_app, py_len_repeat by reflexivity.
  lia.
Qed.

Lemma widened_refl (ws : list nat) : widened ws ws.
Proof. induction ws; constructor; auto. Qed.

Lemma widened_trans (ws1 ws2 ws3 : list nat) :
  widened ws1 ws2 -> widened ws2 ws3 -> widened ws1 ws3.
Proof.
  intro H. revert ws3.
  induction H as [|w w' ws ws' Hw _ IH]; intros ws3 H23; [constructor|].
  inversion H23; subst. constructor; [lia|auto].
Qed.

Lemma covers_widened (ws ws' : list nat) (args : list string) :
  covers ws args -> widened ws' ws -> covers ws' args.
Proof.
  intros Hc Hw. revert args Hc.
  induction Hw as [|w w' ws ws' Hle _ IH]; intros args Hc; [constructor|].
  inversion Hc; subst. constructor; [lia|auto].
Qed.

Lemma widen_spec (ws : list nat) (r : list string) :
  widened (widen ws r) ws /\ covers (widen ws r) r.
Proof.
  unfold widen. revert r.
  induction ws as [|w ws IH]; intros [|a r]; simpl;
    try (split; constructor).
  - lia.
  - apply IH.
  - lia.
  - apply IH.
Qed.

Lemma column_widths_spec (ws0 : list nat) (str_rows : list (list string)) :
  widened (fold_left widen str_rows ws0) ws0 /\
  Forall (covers (fold_left widen str_rows ws0)) str_rows.
Proof.
  revert ws0. induction str_rows as [|r rs IH]; intro ws0; simpl.
  - split; [apply widened_refl|constructor].
  - destruct (IH (widen ws0 r)) as [Hw Hc].
    destruct (widen_spec ws0 r) as [Hw0 Hc0].
    split; [eapply widened_trans; eauto|].
    constructor; [eapply covers_widened; eauto|exact Hc].
Qed.

Lemma covers_headers (headers : list string) :
  covers (map py_len headers) headers.
Proof. induction headers; simpl; constructor; auto. Qed.

Lemma covers_length (ws : list nat) (args : list string) :
  covers ws args -> (List.length ws <= List.length args)%nat.
Proof. induction 1; simpl; lia. Qed.

Lemma concat_fields_width (ws : list nat) (args : list string) :
  covers ws args ->
  py_len (String.concat " | "
            (map (fun wa => ljust (fst wa) (snd wa)) (combine ws args))) =
  table_width ws.
Proof.
  induction 1 as [|w ws a args Ha Hc IH]; [reflexivity|].
  destruct Hc as [args'|w' ws' a' args' Ha' Hc'].
  - simpl. now apply py_len_ljust.
  - change (combine (w :: w' :: ws') (a :: a' :: args'))
      with ((w, a) :: combine (w' :: ws') (a' :: args')).
    change (combine (w' :: ws') (a' :: args'))
      with ((w', a') :: combine ws' args') in *.
    cbn [map String.concat fst snd] in *.
    rewrite !py_len_app, IH, py_len_ljust by exact Ha.
    simpl. lia.
Qed.

Lemma format_fields_covers (ws : list nat) (args : list string) :
  covers ws args ->
  exists line, format_fields ws args = Some line /\
               py_len line = table_width ws.
Proof.
  intro Hc. unfold format_fields.
  pose proof (covers_length _ _ Hc) as Hlen.
  destruct (Nat.ltb_spec (List.length args) (List.length ws)); [lia|].
  eexists. split; [reflexivity|]. now apply concat_fields_width.
Qed.

Lemma rule_width (ws : list nat) :
  py_len (String.concat "-+-" (map (repeat_char "-") ws)) = table_width ws.
Proof.
  induction ws as [|w ws IH]; [reflexivity|].
  destruct ws as [|w' ws'].
  - simpl. now apply py_len_repeat.
  - cbn [map String.concat] in *.
    rewrite !py_len_app, IH, py_len_repeat by reflexivity.
    simpl. lia.
Qed.

Lemma print_rows_covers (ws : list nat) (str_rows : list (list string)) :
  Forall (covers ws) str_rows ->
  exists lines,
    print_rows ws str_rows = (lines, Returned) /\
    List.length lines = List.length str_rows /\
    Forall (fun line => py_len line = table_width ws) lines.
Proof.
  induction 1 as [|r rs Hr _ IH]; simpl.
  - exists []. repeat split. constructor.
  - destruct (format_fields_covers _ _ Hr) as [line [E Hw]].
    destruct IH as [lines [E' [Hlen Hall]]].
    rewrite E, E'. exists (line :: lines).
    repeat split; [simpl; lia|]. now constructor.
Qed.

Section PrintTableFacts.

Context {R : SqlReal}.

Variable float_str : real -> string.

Lemma print_table_lines (rows : list (list cell)) (headers : list string) :
  rows <> [] ->
  let widths :=
    column_widths headers (map (map (str_cell float_str)) rows) in
  exists lines,
    print_table float_str rows headers = (lines, Returned) /\
    List.length lines = (2 + List.length rows)%nat /\
    Forall (fun line => py_len line = table_width widths) lines.
Proof.
  intro Hne. cbv zeta. unfold print_table.
  destruct rows as [|r0 rows]; [contradiction|].
  set (str_rows := map (map (str_cell float_str)) (r0 :: rows)).
  destruct (column_widths_spec (map py_len headers) str_rows)
    as [Hw Hc].
  fold (column_widths headers str_rows) in Hw, Hc.
  pose proof (covers_widened _ _ _ (covers_headers headers) Hw) as Hh.
  destruct (format_fields_covers _ _ Hh) as [head [E Hhead]].
  destruct (print_rows_covers _ _ Hc) as [lines [E' [Hlen Hall]]].
  rewrite E, E'. eexists. split; [reflexivity|]. split.
  - simpl. rewrite Hlen. unfold str_rows. now rewrite length_map.
  - constructor; [exact Hhead|]. constructor; [apply rule_width|].
    exact Hall.
Qed.



End PrintTableFacts.

(** ** [main] *)

Section MainFacts.

Context {R : SqlReal}.

Variable float_str : real -> string.
Variable integrity_text : string.
Variable index_error_text : string.


Lemma table_output_spec (rows : list (list cell)) (headers : list string) :
  let out := table_output float_str index_error_text rows headers in
  (out = ["No records found."] <-> rows = []) /\
  (rows <> [] -> List.length out = (2 + List.length rows)%nat) /\
  (forall l1 l2, In l1 out -> In l2 out -> py_len l1 = py_len l2).
Proof.
  cbv zeta. unfold table_output. destruct rows as [|r0 rows].
  - simpl. repeat split; try contradiction.
    intros l1 l2 [<-|[]] [<-|[]]. reflexivity.
  - destruct (print_table_lines float_str (r0 :: rows) headers)
      as [lines [E [Hlen Hall]]]; [discriminate|].
    rewrite E. split; [|split].
    + split; [|discriminate]. intros ->. simpl in Hlen. lia.
    + intros _. exact Hlen.
    + rewrite Forall_forall in Hall. intros l1 l2 H1 H2.
      now rewrite (Hall _ H1), (Hall _ H2).
Qed.

(** X20: [main] changes the store only when the write of its subcommand
    succeeds.  An add, update or delete command makes the call of
    [add_expense], [update_expense] or [delete_expense] with its own
    arguments: when the call returns, [main] leaves the store that the call
    leaves and prints the confirmation of that subcommand; when the call
    raises, it prints the one line "Error: " with the message and leaves
    the store as it was.  The list and summary commands leave the store as
    it was. *)
Theorem main_changes_only_on_success (s : store) (a : args) :
  let result := main float_str integrity_text index_error_text s a in
  match call_of a with
  | Some c =>
      (snd (exec s c) = Ok tt /\
       result = (fst (exec s c), [confirmation c])) \/
      (exists e,
         snd (exec s c) = Raise e /\
         result = (s, ["Error: " ++ error_text integrity_text e]))
  | None => fst result = s
  end.
Proof.
  cbv zeta.
  destruct a as [x d c n|st en c l|i x d c n|i|st en b c];
    cbn [call_of main exec].
  - destruct (add_expense s x d (Some c) (Some n)) as [s' [[]|e]] eqn:E.
    + left. simpl. auto.
    + right. exists e. simpl. split; [reflexivity|].
      unfold add_expense in E.
      destruct (sql_insert _ _ _ _ _); now inversion E.
  - destruct (list_expenses s st en c l); reflexivity.
  - destruct (update_expense s i x d c n) as [s' [[]|e]] eqn:E.
    + left. simpl. auto.
    + right. exists e. simpl. split; [reflexivity|].
      destruct (update_expense_cases s i x d c n) as [H|[? [? [_ [_ H]]]]];
        rewrite E in H; [simpl in H; now subst|discriminate H].
  - destruct (delete_expense s i) as [s' [[]|e]] eqn:E.
    + left. simpl. auto.
    + right. exists e. simpl. split; [reflexivity|].
      destruct (delete_expense_outcomes s i)
        as [[_ H]|[[_ [_ H]]|[_ [_ H]]]];
        rewrite E in H; now inversion H.
  - reflexivity.
Qed.


(** X22: the [summary] command without [--by] always prints three lines,
    the header Metric | Value, a rule and the total, also when no row is
    selected; with [--by category] or [--by month] it prints "No records
    found." exactly when no row is selected.  It never changes the
    store. *)
Theorem main_summary_output
    (s : store) (start end_ by_ cat : option string) :
  let selected := filter (selects start end_ cat) (rows s) in
  let result :=
    main float_str integrity_text index_error_text s
      (ArgsSummary start end_ by_ cat) in
  let out := snd result in
  fst result = s /\
  (by_ = None ->
   exists t,
     summarize s start end_ None cat = [("total", t)] /\
     out = ["Metric | " ++ ljust (Nat.max 5 (py_len (float_str t))) "Value";
            "-------+-" ++
              repeat_char "-" (Nat.max 5 (py_len (float_str t)));
            "total  | " ++
              ljust (Nat.max 5 (py_len (float_str t))) (float_str t)]) /\
  (by_ = Some "category" \/ by_ = Some "month" ->
   (out = ["No records found."] <-> selected = [])).
Proof.
  cbv zeta. split; [reflexivity|split].
  - intros ->. rewrite summarize_no_grouping.
    cbn [main snd summary_headers].
    rewrite summarize_no_grouping.
    generalize (or_zero (sql_ROUND2 (sql_SUM (map amount
                  (filter (selects start end_ cat) (rows s)))))).
    intro t. exists t. split; reflexivity.
  - intro Hby. cbn [main snd].
    destruct (table_output_spec
                (map summary_cells (summarize s start end_ by_ cat))
                (summary_headers by_)) as [H1 _].
    rewrite H1.
    assert (Hmap : map summary_cells (summarize s start end_ by_ cat) = []
                   <-> summarize s start end_ by_ cat = []).
    { split; [apply map_eq_nil|now intros ->]. }
    rewrite Hmap.
    destruct Hby as [->| ->]; apply grouped_empty_iff.
Qed.

End MainFacts.

(** ** Listings after an insertion, labels of the summary *)

Section ListingFacts.

Context {R : SqlReal}.

(** X23: [add_expense] changes no listing beyond the new row: with any
    filters, the rows listed after a successful call are the rows listed
    before, together with the new row when it satisfies the filters. *)
Theorem add_expense_extends_listing
    (s : store) (x : real) (d : string) (c n : option string)
    (start end_ cat : option string) :
  real_nonneg x = true ->
  let new := mkExpense (next_rowid s) x d (Py.or_empty c) (Py.or_empty n) in
  let s' := fst (add_expense s (Float x) d c n) in
  exists before after,
    list_expenses s start end_ cat None = Ok before /\
    list_expenses s' start end_ cat None = Ok after /\
    Permutation after
      (if selects start end_ cat new then new :: before else before).
Proof.
  intro Hx. cbv zeta. rewrite (add_expense_ok s x d c n Hx).
  do 2 eexists.
  split; [apply list_expenses_unlimited|].
  split; [apply list_expenses_unlimited|].
  unfold ordered_selection. cbn [fst rows].
  rewrite order_by_perm, filter_app. cbn [filter].
  destruct (selects start end_ cat _).
  - rewrite <- Permutation_cons_append.
    constructor. symmetry. apply order_by_perm.
  - rewrite app_nil_r. symmetry. apply order_by_perm.
Qed.

(** X24: in the summary by category no label is the empty string: rows
    without a category appear under "uncategorized". *)
Theorem summarize_category_labels
    (s : store) (start end_ cat : option string) (g : string) (t : real) :
  In (g, t) (summarize s start end_ (Some "category") cat) ->
  g <> "" /\
  exists r, In r (filter (selects start end_ cat) (rows s)) /\
            g = (if (category r =? "")%string then "uncategorized"
                 else category r).
Proof.
  rewrite summarize_category. intro Hin.
  apply (in_map fst) in Hin. simpl in Hin.
  assert (Hg : In g (map fst (group_totals category_label
                 (filter (selects start end_ cat) (rows s))))).
  { eapply Permutation_in; [|exact Hin].
    apply Permutation_map, order_by_perm. }
  rewrite group_totals_keys, group_keys_In, in_map_iff in Hg.
  destruct Hg as [r [E Hr]]. rewrite category_label_of in E.
  unfold label_of_category in E.
  split.
  - rewrite <- E. destruct (String.eqb_spec (category r) "");
      [discriminate|assumption].
  - exists r. split; [exact Hr|now symmetry].
Qed.

End ListingFacts.

(** ** The further properties at concrete stores *)

(** Deleting the id 7, which the two-row store does not hold. *)
Lemma raise_leaves_store_witness :
  snd (exec two_rows (Delete 7)) = Raise (NotFound 7) /\
  fst (exec two_rows (Delete 7)) = two_rows.
Proof.
  split; [reflexivity|].
  apply (raise_leaves_store two_rows (Delete 7) (NotFound 7)). reflexivity.
Defined.

(** Adding NaN. *)
Lemma add_expense_rejects_witness :
  rejected_amount (R := ExactReal) NaN /\
  add_expense two_rows NaN "2025-01-05" None None =
    (two_rows, Raise IntegrityError) /\
  assigned_by two_rows (Add NaN "2025-01-05" None None) = [].
Proof.
  assert (H : rejected_amount (R := ExactReal) NaN) by (left; reflexivity).
  split; [exact H|].
  exact (add_expense_rejects two_rows NaN "2025-01-05" None None H).
Defined.

(** Setting the amount of row 1 to -1. *)
Lemma update_expense_rejects_witness :
  update_expense two_rows 1 (Some (@Float ExactReal (-1)%Q)) None
    (Some "x") None =
  (two_rows, Raise IntegrityError).
Proof.
  apply (update_expense_rejects two_rows 1 (@Float ExactReal (-1)%Q)).
  - right. exists (-1)%Q. split; reflexivity.
  - eexists. split; [left; reflexivity|reflexivity].
  - unfold in_int64. lia.
Defined.

(** Deleting row 2 of the two-row store. *)
Lemma delete_expense_removes_witness :
  exists s' l,
    delete_expense two_rows 2 = (s', Ok tt) /\
    seq s' = seq two_rows /\
    list_expenses s' None None None None = Ok l /\
    (forall r, In r l <-> In r (rows two_rows) /\ id r <> 2) /\
    delete_expense s' 2 = (s', Raise (NotFound 2)).
Proof.
  apply (delete_expense_removes two_rows 2).
  - eexists. split; [right; left; reflexivity|reflexivity].
  - unfold in_int64. lia.
Defined.

(** Adding an expense of 7 to the two-row store and deleting it again. *)
Lemma add_then_delete_witness :
  @real_nonneg ExactReal 7%Q = true /\
  delete_expense
    (fst (add_expense two_rows (@Float ExactReal 7%Q) "2025-02-01" None None))
    (next_rowid two_rows) =
    ({| rows := rows two_rows; seq := next_rowid two_rows |}, Ok tt) /\
  next_rowid {| rows := rows two_rows; seq := next_rowid two_rows |} =
    next_rowid two_rows + 1.
Proof.
  assert (H : in_int64 (next_rowid two_rows))
    by (change (next_rowid two_rows) with 3; unfold in_int64; lia).
  split; [reflexivity|].
  destruct (add_then_delete two_rows 7%Q "2025-02-01" None None eq_refl)
    as [Hdel [_ Hnext]].
  split; [exact (Hdel H)|exact Hnext].
Defined.

(** Changing amount and category of row 2. *)
Lemma update_then_list_witness :
  exists (s' : store) (r r' : expense) (l : list expense),
    update_expense two_rows 2 (Some (@Float ExactReal 6%Q)) None
      (Some "") None = (s', Ok tt) /\
    In r (rows two_rows) /\ id r = 2 /\
    list_expenses s' None None None None = Ok l /\
    In r' l /\
    kept_by_update 2 (Some (@Float ExactReal 6%Q)) None (Some "") None
      r r' /\
    written_by_update (Some (@Float ExactReal 6%Q)) None (Some "") None
      r' /\
    (forall r'', In r'' l -> id r'' = 2 -> r'' = r').
Proof.
  apply (update_then_list two_rows 2 (Some (@Float ExactReal 6%Q)) None
           (Some "") None).
  - unfold key_ascending. simpl. repeat constructor; simpl; lia.
  - eexists. split; [right; left; reflexivity|reflexivity].
  - left. discriminate.
  - intros v E. injection E as <-. exists 6%Q. split; reflexivity.
  - unfold in_int64. lia.
Defined.

(** The limit 0 on the two-row store. *)
Lemma list_expenses_limit_nonpositive_witness :
  -1 <= 0 /\ - 2 ^ 63 <= -1 /\
  list_expenses two_rows None None None (Some (-1)) =
  list_expenses two_rows None None None None.
Proof.
  split; [lia|]. split; [lia|].
  apply (list_expenses_limit_nonpositive two_rows None None None (-1)); lia.
Defined.

(** From February back to January. *)
Lemma list_expenses_inverted_range_witness :
  (limit_overflows (Some 3) /\
   list_expenses two_rows (Some "2025-02-01") (Some "2025-01-01")
     (Some "food") (Some 3) = Raise OverflowError) \/
  (~ limit_overflows (Some 3) /\
   list_expenses two_rows (Some "2025-02-01") (Some "2025-01-01")
     (Some "food") (Some 3) = Ok []).
Proof.
  apply (list_expenses_inverted_range two_rows "2025-02-01" "2025-01-01").
  - discriminate.
  - reflexivity.
Defined.

(** The category food in the two-row store. *)
Lemma list_expenses_category_refines_witness :
  exists l,
    list_expenses two_rows None None None None = Ok l /\
    list_expenses two_rows None None (Some "food") None =
    Ok (filter (fun r => (category r =? "food")%string) l).
Proof.
  apply (list_expenses_category_refines two_rows None None "food").
  discriminate.
Defined.

(** Grouping by year is not known. *)
Lemma summarize_unknown_grouping_witness :
  summarize two_rows None None (Some "year") None =
  summarize two_rows None None None None.
Proof.
  apply (summarize_unknown_grouping two_rows None None None "year");
    discriminate.
Defined.

(** The month of 2025-01-15. *)
Lemma month_label_ascii_witness :
  all_ascii "2025-01-15" = true /\
  Sql.substr_1_7 "2025-01-15" = substring 0 7 "2025-01-15" /\
  forall rest,
    Sql.substr_1_7 ("2025-01-15" ++ String Ascii.zero rest) =
    substring 0 7 "2025-01-15".
Proof.
  split; [reflexivity|]. apply (month_label_ascii "2025-01-15").
  reflexivity.
Defined.


(** Adding an expense of 7 dated 2025-02-01 and listing from 2025-01-02
    on. *)
Lemma add_expense_extends_listing_witness :
  @real_nonneg ExactReal 7%Q = true /\
  exists before after,
    list_expenses two_rows (Some "2025-01-02") None None None =
      Ok before /\
    list_expenses
      (fst (add_expense two_rows (@Float ExactReal 7%Q) "2025-02-01"
              None None))
      (Some "2025-01-02") None None None = Ok after /\
    Permutation after (mkExpense 3 7%Q "2025-02-01" "" "" :: before).
Proof.
  split; [reflexivity|].
  apply (add_expense_extends_listing two_rows 7%Q "2025-02-01" None None
           (Some "2025-01-02") None None).
  reflexivity.
Defined.

(** The labels of the summary of [clashing_labels]. *)
Lemma summarize_category_labels_witness :
  "uncategorized" <> "" /\
  exists r,
    In r (filter (selects None None None) (rows clashing_labels)) /\
    "uncategorized" =
      (if (category r =? "")%string then "uncategorized" else category r).
Proof.
  apply (summarize_category_labels clashing_labels None None None
           "uncategorized" 15%Q).
  left. reflexivity.
Defined.
